(** * ORKL threat-intelligence gateway: a shallow embedding of [src/orkl/server.py]

    The server keeps a process-wide [cache] of three Python dictionaries
    (reports, actors, sources), answers resource listings and reads from it,
    and fills it as a side effect of six tools that query the ORKL HTTP API.

    The embedding follows the Python text:
    - JSON documents are an inductive type; objects and dictionaries are
      association lists in insertion order, as Python dictionaries are;
    - Python exceptions are values of [exn]; a handler is a function in a
      state-and-exception monad [M] whose state is the cache together with the
      log of upstream requests; state changes made before an exception stay;
    - text is a [string] whose characters are read as code points below 256;
    - JSON numbers are integers: numbers with a fraction or an exponent decode
      to floating-point values, which stay outside this development. *)

From Stdlib Require Import ZArith List String Ascii Bool Lia DecimalString.
Import ListNotations.
Open Scope string_scope.
Open Scope Z_scope.

Set Implicit Arguments.

(** ** Python values *)

Module Py.

(** Result of [json.loads]: [None], [bool], [int], [str], [list], [dict]. *)
#[warnings="-register-all"]
Inductive JSON : Type :=
| JNull
| JBool (b : bool)
| JInt (n : Z)
| JStr (s : string)
| JArr (items : list JSON)
| JObj (fields : list (string * JSON)).

(** Exceptions raised by the handlers and by the built-ins they call. *)
Inductive exn : Type :=
| ValueError (msg : string)
| KeyError (key : string)
| TypeError
| AttributeError
| IndexError
| JSONDecodeError
| HTTPError (msg : string).

(** Outcome of an expression that may raise. *)
Definition Exc (A : Type) : Type := (exn + A)%type.

Definition raise {A} (e : exn) : Exc A := inl e.
Definition ok {A} (a : A) : Exc A := inr a.

Definition ebind {A B} (x : Exc A) (f : A -> Exc B) : Exc B :=
  match x with
  | inl e => inl e
  | inr a => f a
  end.

(** *** Strings *)

Definition LF : string := String (ascii_of_nat 10) EmptyString.

(** [str(n)] for an [int]. *)
Definition str_int (n : Z) : string := NilZero.string_of_int (Z.to_int n).

(** [sep.join(parts)]. *)
Fixpoint join (sep : string) (parts : list string) : string :=
  match parts with
  | [] => ""
  | [p] => p
  | p :: rest => p ++ sep ++ join sep rest
  end.

Fixpoint lstrip (c : ascii) (s : string) : string :=
  match s with
  | String a s' => if Ascii.eqb a c then lstrip c s' else s
  | EmptyString => EmptyString
  end.

(** Right strip, written as one pass: a suffix made only of [c] is dropped. *)
Fixpoint rstrip (c : ascii) (s : string) : string :=
  match s with
  | EmptyString => EmptyString
  | String a s' =>
      match rstrip c s' with
      | EmptyString => if Ascii.eqb a c then EmptyString else String a EmptyString
      | r => String a r
      end
  end.

(** [s.strip(c)] for a one-character argument. *)
Definition strip (c : ascii) (s : string) : string := rstrip c (lstrip c s).

(** [s.split(c)]: always at least one part. *)
Fixpoint split (c : ascii) (s : string) : list string :=
  match s with
  | EmptyString => [EmptyString]
  | String a s' =>
      if Ascii.eqb a c then EmptyString :: split c s'
      else match split c s' with
           | p :: ps => String a p :: ps
           | [] => [String a EmptyString]
           end
  end.

(** [parts[i]] on a list. *)
Definition list_getitem {A} (l : list A) (i : nat) : Exc A :=
  match nth_error l i with
  | Some x => ok x
  | None => raise IndexError
  end.

Definition hex_digit (n : nat) : ascii :=
  nth n (list_ascii_of_string "0123456789abcdef") "0"%char.

(** Two lowercase hexadecimal digits of a code point below 256. *)
Definition hex2 (a : ascii) : string :=
  let n := nat_of_ascii a in
  String (hex_digit (Nat.div n 16)) (String (hex_digit (Nat.modulo n 16)) EmptyString).

Fixpoint contains_char (c : ascii) (s : string) : bool :=
  match s with
  | EmptyString => false
  | String a s' => Ascii.eqb a c || contains_char c s'
  end.

(** [str.isprintable] on one code point below 256. *)
Definition printable (a : ascii) : bool :=
  let n := nat_of_ascii a in
  ((32 <=? n) && (n <? 127) || (161 <=? n) && negb (n =? 173))%nat.

Definition apostrophe : ascii := ascii_of_nat 39.
Definition dquote : ascii := ascii_of_nat 34.
Definition backslash : ascii := ascii_of_nat 92.

(** A backslash followed by [s]. *)
Definition esc (s : string) : string := String backslash s.

Definition repr_char (quote : ascii) (a : ascii) : string :=
  let n := nat_of_ascii a in
  if Ascii.eqb a quote || Ascii.eqb a backslash then esc (String a EmptyString)
  else if (n =? 9)%nat then esc "t"
  else if (n =? 10)%nat then esc "n"
  else if (n =? 13)%nat then esc "r"
  else if printable a then String a EmptyString
  else esc "x" ++ hex2 a.

Fixpoint concat_map (f : ascii -> string) (s : string) : string :=
  match s with
  | EmptyString => EmptyString
  | String a s' => f a ++ concat_map f s'
  end.

(** [repr(s)] for a [str]: single quotes, unless the text has a single quote
    and no double quote. *)
Definition repr_str (s : string) : string :=
  let quote :=
    if contains_char apostrophe s && negb (contains_char dquote s)
    then dquote else apostrophe in
  String quote (concat_map (repr_char quote) s) ++ String quote EmptyString.

(** [repr(v)]; containers print their items with [repr]. *)
Fixpoint repr (v : JSON) : string :=
  match v with
  | JNull => "None"
  | JBool true => "True"
  | JBool false => "False"
  | JInt n => str_int n
  | JStr s => repr_str s
  | JArr items =>
      "[" ++ join ", " ((fix go (l : list JSON) : list string :=
                           match l with
                           | [] => []
                           | x :: l' => repr x :: go l'
                           end) items) ++ "]"
  | JObj fields =>
      "{" ++ join ", " ((fix go (l : list (string * JSON)) : list string :=
                           match l with
                           | [] => []
                           | (k, x) :: l' => (repr_str k ++ ": " ++ repr x) :: go l'
                           end) fields) ++ "}"
  end.

(** [str(v)], which is what an f-string placeholder [{v}] prints. *)
Definition str (v : JSON) : string :=
  match v with
  | JStr s => s
  | _ => repr v
  end.

(** [v[key]] with a string key: only a [dict] answers; [str], [list], [int],
    [bool] and [None] raise [TypeError]. *)
Fixpoint assoc {A} (key : string) (l : list (string * A)) : option A :=
  match l with
  | [] => None
  | (k, x) :: l' => if String.eqb k key then Some x else assoc key l'
  end.

Definition getitem (v : JSON) (key : string) : Exc JSON :=
  match v with
  | JObj fields =>
      match assoc key fields with
      | Some x => ok x
      | None => raise (KeyError key)
      end
  | _ => raise TypeError
  end.

(** [v.get(key, default)]: only a [dict] has the method. *)
Definition get (v : JSON) (key : string) (default : JSON) : Exc JSON :=
  match v with
  | JObj fields =>
      match assoc key fields with
      | Some x => ok x
      | None => ok default
      end
  | _ => raise AttributeError
  end.

Fixpoint chars (s : string) : list JSON :=
  match s with
  | EmptyString => []
  | String a s' => JStr (String a EmptyString) :: chars s'
  end.

(** The items a [for] loop or a comprehension visits. *)
Definition iter (v : JSON) : Exc (list JSON) :=
  match v with
  | JArr items => ok items
  | JObj fields => ok (map (fun kv => JStr (fst kv)) fields)
  | JStr s => ok (chars s)
  | _ => raise TypeError
  end.

(** *** [json.dumps(v, indent=2)] *)

Definition escape_char (a : ascii) : string :=
  let n := nat_of_ascii a in
  if (n =? 34)%nat then esc (String dquote EmptyString)
  else if (n =? 92)%nat then esc (esc EmptyString)
  else if (n =? 10)%nat then esc "n"
  else if (n =? 13)%nat then esc "r"
  else if (n =? 9)%nat then esc "t"
  else if (n =? 8)%nat then esc "b"
  else if (n =? 12)%nat then esc "f"
  else if ((32 <=? n) && (n <? 127))%nat then String a EmptyString
  else esc "u00" ++ hex2 a.

(** [encode_basestring_ascii]. *)
Definition encode_str (s : string) : string :=
  String dquote (concat_map escape_char s) ++ String dquote EmptyString.

Fixpoint spaces (n : nat) : string :=
  match n with
  | O => EmptyString
  | S n' => String " "%char (spaces n')
  end.

Definition newline_indent (level : nat) : string := LF ++ spaces (2 * level).

Fixpoint dumps_at (level : nat) (v : JSON) : string :=
  match v with
  | JNull => "null"
  | JBool true => "true"
  | JBool false => "false"
  | JInt n => str_int n
  | JStr s => encode_str s
  | JArr [] => "[]"
  | JArr (x :: items) =>
      "[" ++ newline_indent (S level) ++ dumps_at (S level) x
      ++ (fix rest (l : list JSON) : string :=
            match l with
            | [] => EmptyString
            | y :: l' =>
                "," ++ newline_indent (S level) ++ dumps_at (S level) y ++ rest l'
            end) items
      ++ newline_indent level ++ "]"
  | JObj [] => "{}"
  | JObj ((k, x) :: fields) =>
      "{" ++ newline_indent (S level) ++ encode_str k ++ ": " ++ dumps_at (S level) x
      ++ (fix rest (l : list (string * JSON)) : string :=
            match l with
            | [] => EmptyString
            | (k', y) :: l' =>
                "," ++ newline_indent (S level) ++ encode_str k' ++ ": "
                ++ dumps_at (S level) y ++ rest l'
            end) fields
      ++ newline_indent level ++ "}"
  end.

Definition dumps (v : JSON) : string := dumps_at 0 v.

(** *** Dictionaries keyed by JSON scalars

    A Python [dict] keeps its keys in the order of their first insertion;
    assigning to a key already present replaces the value in place. *)

Definition hashable (k : JSON) : bool :=
  match k with
  | JArr _ | JObj _ => false
  | _ => true
  end.

(** [==] on hashable JSON values; [True == 1] and [False == 0] in Python. *)
Definition key_eqb (a b : JSON) : bool :=
  match a, b with
  | JNull, JNull => true
  | JBool x, JBool y => Bool.eqb x y
  | JBool x, JInt n => n =? (if x then 1 else 0)
  | JInt n, JBool y => n =? (if y then 1 else 0)
  | JInt n, JInt m => n =? m
  | JStr s, JStr t => String.eqb s t
  | _, _ => false
  end.

Definition dict : Type := list (JSON * JSON).

Fixpoint dict_lookup (d : dict) (k : JSON) : option JSON :=
  match d with
  | [] => None
  | (k', v) :: d' => if key_eqb k' k then Some v else dict_lookup d' k
  end.

(** [d.get(k, default)]. *)
Definition dict_get (d : dict) (k : JSON) (default : JSON) : JSON :=
  match dict_lookup d k with
  | Some v => v
  | None => default
  end.

(** The update behind [d[k] = v] once [k] is known to be hashable. *)
Fixpoint dict_set (d : dict) (k v : JSON) : dict :=
  match d with
  | [] => [(k, v)]
  | (k', v') :: d' =>
      if key_eqb k' k then (k', v) :: d' else (k', v') :: dict_set d' k v
  end.

(** [d[k] = v]: an unhashable key ([list], [dict]) raises [TypeError]. *)
Definition dict_setitem (d : dict) (k v : JSON) : Exc dict :=
  if hashable k then ok (dict_set d k v) else raise TypeError.

Definition keys (d : dict) : list JSON := map fst d.

(** Is [k] one of the keys [l], up to Python equality? *)
Definition key_mem (k : JSON) (l : list JSON) : bool :=
  existsb (fun k' => key_eqb k' k) l.

End Py.


(** ** The server *)

Module Orkl.
Import Py.

Definition ORKL_BASE_URL : string := "https://orkl.eu/api/v1".

(** *** Data *)

(** The global [cache]: a dictionary with three fixed keys, each holding a
    dictionary from entity id to the entity's last-known record. *)
Record Cache : Type := {
  threat_reports : dict;
  threat_actors : dict;
  sources : dict
}.

(** The three keys of [cache]. *)
Inductive CacheKey : Type := ThreatReports | ThreatActors | Sources.

(** [cache[key]]. *)
Definition cache_get (c : Cache) (key : CacheKey) : dict :=
  match key with
  | ThreatReports => threat_reports c
  | ThreatActors => threat_actors c
  | Sources => sources c
  end.

(** The cache after the dictionary under [key] became [d]. *)
Definition cache_with (c : Cache) (key : CacheKey) (d : dict) : Cache :=
  match key with
  | ThreatReports =>
      {| threat_reports := d; threat_actors := threat_actors c; sources := sources c |}
  | ThreatActors =>
      {| threat_reports := threat_reports c; threat_actors := d; sources := sources c |}
  | Sources =>
      {| threat_reports := threat_reports c; threat_actors := threat_actors c; sources := d |}
  end.

(** Value of [cache] when the module is loaded. *)
Definition cache_init : Cache :=
  {| threat_reports := []; threat_actors := []; sources := [] |}.

(** A [pydantic.AnyUrl] as the handlers see it: the attributes they read.
    [path] is [None] for a URL without a path. *)
Record AnyUrl : Type := {
  scheme : string;
  host : option string;
  path : option string
}.

(** [types.Resource]. [uri] holds the text handed to the [AnyUrl] constructor. *)
Record Resource : Type := {
  uri : string;
  name : string;
  description : string;
  mimeType : string
}.

(** [types.TextContent]. *)
Record TextContent : Type := {
  type : string;
  text : string
}.

(** What [client.get] returns: [httpx.Response] with its status, its raw body
    and the outcome of [response.json()]. *)
Record Response : Type := {
  status_code : Z;
  response_text : string;
  json : Exc JSON
}.

(** The upstream catalog, seen from one tool call: every URL either answers
    or makes [client.get] raise. *)
Definition Client : Type := string -> Exc Response.

(** *** Handlers that only read the cache *)

Declare Scope exc_scope.
Notation "x <- e1 ;; e2" := (ebind e1 (fun x => e2))
  (at level 61, e1 at next level, right associativity) : exc_scope.
Delimit Scope exc_scope with exc.

(** A list comprehension whose element expression may raise. *)
Fixpoint comprehension {A B} (f : A -> Exc B) (l : list A) : Exc (list B) :=
  match l with
  | [] => ok []
  | x :: l' =>
      (y <- f x ;;
       ys <- comprehension f l' ;;
       ok (y :: ys))%exc
  end.

Definition report_resource (item : JSON * JSON) : Exc Resource :=
  let (report_id, details) := item in
  (title <- getitem details "title" ;;
   title' <- getitem details "title" ;;
   ok {| uri := "threat://report/" ++ str report_id;
         name := "Threat Report: " ++ str title;
         description := "Threat report titled " ++ str title';
         mimeType := "application/json" |})%exc.

Definition actor_resource (item : JSON * JSON) : Exc Resource :=
  let (actor_id, details) := item in
  (main_name <- getitem details "main_name" ;;
   main_name' <- getitem details "main_name" ;;
   ok {| uri := "threat://actor/" ++ str actor_id;
         name := "Threat Actor: " ++ str main_name;
         description := "Threat actor known as " ++ str main_name';
         mimeType := "application/json" |})%exc.

Definition source_resource (item : JSON * JSON) : Exc Resource :=
  let (source_id, details) := item in
  (name_ <- getitem details "name" ;;
   name' <- getitem details "name" ;;
   ok {| uri := "threat://source/" ++ str source_id;
         name := "Source: " ++ str name_;
         description := "Source " ++ str name';
         mimeType := "application/json" |})%exc.

(** [handle_list_resources]: three comprehensions over the items of the three
    dictionaries, appended in the order reports, actors, sources. *)
Definition handle_list_resources (cache : Cache) : Exc (list Resource) :=
  (reports <- comprehension report_resource (threat_reports cache) ;;
   actors <- comprehension actor_resource (threat_actors cache) ;;
   sources_ <- comprehension source_resource (sources cache) ;;
   ok (reports ++ actors ++ sources_)%list)%exc.

(** [handle_read_resource]. *)
Definition handle_read_resource (uri : AnyUrl) (cache : Cache) : Exc string :=
  if negb (String.eqb (scheme uri) "threat") then
    raise (ValueError ("Unsupported URI scheme: " ++ scheme uri))
  else
    match path uri with
    | None => raise AttributeError
    | Some p =>
        let path_parts := split "/" (strip "/" p) in
        (resource_type <- list_getitem path_parts 0 ;;
         resource_id <- list_getitem path_parts 1 ;;
         if String.eqb resource_type "report" then
           ok (dumps (dict_get (threat_reports cache) (JStr resource_id) (JObj [])))
         else if String.eqb resource_type "actor" then
           ok (dumps (dict_get (threat_actors cache) (JStr resource_id) (JObj [])))
         else if String.eqb resource_type "source" then
           ok (dumps (dict_get (sources cache) (JStr resource_id) (JObj [])))
         else
           raise (ValueError ("Unknown resource type: " ++ resource_type)))%exc
    end.

(** *** Resource addresses

    [pydantic.AnyUrl] follows the URL standard: in [scheme://authority/rest]
    the text between [//] and the next [/] is the host, and the path is what
    follows it, leading slash included. The parser below is defined on plain
    addresses only, where the standard neither rewrites nor rejects anything:
    a lowercase scheme, a non-empty host, and path segments made of letters,
    digits, [-], [_], [.] and [~], none of them [.] or [..]. *)

Definition is_lower (a : ascii) : bool :=
  let n := nat_of_ascii a in ((97 <=? n) && (n <=? 122))%nat.

Definition is_plain (a : ascii) : bool :=
  let n := nat_of_ascii a in
  (is_lower a || (65 <=? n) && (n <=? 90) || (48 <=? n) && (n <=? 57)
   || (n =? 45) || (n =? 95) || (n =? 46) || (n =? 126))%nat.

Fixpoint all_chars (p : ascii -> bool) (s : string) : bool :=
  match s with
  | EmptyString => true
  | String a s' => p a && all_chars p s'
  end.

Definition plain_segment (s : string) : bool :=
  all_chars is_plain s && negb (String.eqb s ".") && negb (String.eqb s "..").

(** Text before and after the first occurrence of [c]. *)
Fixpoint cut (c : ascii) (s : string) : option (string * string) :=
  match s with
  | EmptyString => None
  | String a s' =>
      if Ascii.eqb a c then Some (EmptyString, s')
      else match cut c s' with
           | Some (l, r) => Some (String a l, r)
           | None => None
           end
  end.

Definition AnyUrl_parse (address : string) : option AnyUrl :=
  match cut ":" address with
  | Some (sch, String "/" (String "/" rest)) =>
      let (authority, tail) :=
        match cut "/" rest with
        | Some (h, t) => (h, Some (String "/" t))
        | None => (rest, None)
        end in
      if all_chars is_lower sch && negb (String.eqb sch "")
         && all_chars is_plain authority && negb (String.eqb authority "")
         && match tail with
            | Some t => forallb plain_segment (split "/" t)
            | None => true
            end
      then Some {| scheme := sch; host := Some authority; path := tail |}
      else None
  | _ => None
  end.

(** [read_resource] as a caller reaches it: by an address. *)
Definition read_resource (address : string) (cache : Cache) : option (Exc string) :=
  match AnyUrl_parse address with
  | Some u => Some (handle_read_resource u cache)
  | None => None
  end.

(** *** The tool dispatcher

    A tool call runs against the global cache and the upstream catalog. The
    state is the cache and the log of URLs requested so far, oldest first.
    An exception leaves the state as it was when it was raised. *)

Record State : Type := {
  cache : Cache;
  requests : list string
}.

Definition M (A : Type) : Type := State -> Exc A * State.

Definition ret {A} (a : A) : M A := fun st => (ok a, st).

Definition bind {A B} (m : M A) (f : A -> M B) : M B :=
  fun st =>
    match m st with
    | (inl e, st') => (inl e, st')
    | (inr a, st') => f a st'
    end.

(** An expression that reads no state. *)
Definition lift {A} (e : Exc A) : M A := fun st => (e, st).

Declare Scope tool_scope.
Delimit Scope tool_scope with tool.
Notation "x <- m1 ;; m2" := (bind m1 (fun x => m2))
  (at level 61, m1 at next level, right associativity) : tool_scope.
Notation "m1 ;; m2" := (bind m1 (fun _ => m2))
  (at level 61, right associativity) : tool_scope.

(** [await client.get(url)]: the request is logged, then answered. *)
Definition client_get (client : Client) (url : string) : M Response :=
  fun st =>
    (client url, {| cache := cache st; requests := (requests st ++ [url])%list |}).

(** [cache[key][k] = v]. *)
Definition cache_setitem (key : CacheKey) (k v : JSON) : M unit :=
  fun st =>
    match dict_setitem (cache_get (cache st) key) k v with
    | inl e => (inl e, st)
    | inr d =>
        (ok tt, {| cache := cache_with (cache st) key d; requests := requests st |})
    end.

(** A [for] loop over a list already in hand. *)
Fixpoint for_each {A} (body : A -> M unit) (l : list A) : M unit :=
  match l with
  | [] => ret tt
  | x :: l' => (body x ;; for_each body l')%tool
  end.

(** [arguments.get(key)] on [dict[str, str] | None]. *)
Definition arguments_get (arguments : option (list (string * string))) (key : string)
  : Exc (option string) :=
  match arguments with
  | None => raise AttributeError
  | Some d => ok (assoc key d)
  end.

(** Truth value of what [arguments.get] returned: [None] and the empty
    string are false. *)
Definition truthy (v : option string) : bool :=
  match v with
  | None => false
  | Some s => negb (String.eqb s "")
  end.

Definition text_content (s : string) : TextContent := {| type := "text"; text := s |}.

(** The block returned for a status other than 200. *)
Definition error_content (response : Response) : list TextContent :=
  [text_content ("Error: " ++ str_int (status_code response) ++ " " ++ response_text response)].

(** [handle_call_tool], branch by branch. *)
Definition handle_call_tool (client : Client) (name : string)
  (arguments : option (list (string * string))) : M (list TextContent) :=
  (if String.eqb name "fetch_latest_threat_reports" then
     response <- client_get client
       (ORKL_BASE_URL ++ "/library/entries?limit=5&order_by=created_at&order=desc") ;;
     if status_code response =? 200 then
       body <- lift (json response) ;;
       reports <- lift (get body "data" (JArr [])) ;;
       items <- lift (iter reports) ;;
       for_each (fun report =>
                   id <- lift (getitem report "id") ;;
                   cache_setitem ThreatReports id report) items ;;
       lines <- lift (comprehension
                        (fun report =>
                           (id <- getitem report "id" ;;
                            title <- getitem report "title" ;;
                            ok ("ID: " ++ str id ++ ", Title: " ++ str title))%exc)
                        items) ;;
       ret [text_content (join LF lines)]
     else ret (error_content response)

   else if String.eqb name "fetch_threat_report_details" then
     report_id <- lift (arguments_get arguments "report_id") ;;
     if negb (truthy report_id) then
       lift (raise (ValueError "report_id is required."))
     else
       let report_id := match report_id with Some s => s | None => "" end in
       response <- client_get client (ORKL_BASE_URL ++ "/library/entry/" ++ report_id) ;;
       if status_code response =? 200 then
         body <- lift (json response) ;;
         report_details <- lift (get body "data" (JObj [])) ;;
         cache_setitem ThreatReports (JStr report_id) report_details ;;
         ret [text_content (dumps report_details)]
       else ret (error_content response)

   else if String.eqb name "fetch_threat_actors" then
     response <- client_get client (ORKL_BASE_URL ++ "/ta/entries") ;;
     if status_code response =? 200 then
       body <- lift (json response) ;;
       actors <- lift (get body "data" (JArr [])) ;;
       items <- lift (iter actors) ;;
       for_each (fun actor =>
                   id <- lift (getitem actor "id") ;;
                   cache_setitem ThreatActors id actor) items ;;
       lines <- lift (comprehension
                        (fun actor =>
                           (id <- getitem actor "id" ;;
                            main_name <- getitem actor "main_name" ;;
                            ok ("ID: " ++ str id ++ ", Name: " ++ str main_name))%exc)
                        items) ;;
       ret [text_content (join LF lines)]
     else ret (error_content response)

   else if String.eqb name "fetch_threat_actor_details" then
     actor_id <- lift (arguments_get arguments "actor_id") ;;
     if negb (truthy actor_id) then
       lift (raise (ValueError "actor_id is required."))
     else
       let actor_id := match actor_id with Some s => s | None => "" end in
       response <- client_get client (ORKL_BASE_URL ++ "/ta/entry/" ++ actor_id) ;;
       if status_code response =? 200 then
         body <- lift (json response) ;;
         actor_details <- lift (get body "data" (JObj [])) ;;
         cache_setitem ThreatActors (JStr actor_id) actor_details ;;
         ret [text_content (dumps actor_details)]
       else ret (error_content response)

   else if String.eqb name "fetch_sources" then
     response <- client_get client (ORKL_BASE_URL ++ "/source/entries") ;;
     if status_code response =? 200 then
       body <- lift (json response) ;;
       sources_ <- lift (get body "data" (JArr [])) ;;
       items <- lift (iter sources_) ;;
       for_each (fun source =>
                   id <- lift (getitem source "id") ;;
                   cache_setitem Sources id source) items ;;
       lines <- lift (comprehension
                        (fun source =>
                           (id <- getitem source "id" ;;
                            name_ <- getitem source "name" ;;
                            ok ("ID: " ++ str id ++ ", Name: " ++ str name_))%exc)
                        items) ;;
       ret [text_content (join LF lines)]
     else ret (error_content response)

   else if String.eqb name "fetch_source_details" then
     source_id <- lift (arguments_get arguments "source_id") ;;
     if negb (truthy source_id) then
       lift (raise (ValueError "source_id is required."))
     else
       let source_id := match source_id with Some s => s | None => "" end in
       response <- client_get client (ORKL_BASE_URL ++ "/source/entry/" ++ source_id) ;;
       if status_code response =? 200 then
         body <- lift (json response) ;;
         source_details <- lift (get body "data" (JObj [])) ;;
         cache_setitem Sources (JStr source_id) source_details ;;
         ret [text_content (dumps source_details)]
       else ret (error_content response)

   else lift (raise (ValueError ("Unknown tool: " ++ name))))%tool.

End Orkl.

(** ** Vocabulary of the specification *)

Module Spec.
Import Py Orkl.

(** The closed set of entity kinds. *)
Inductive EntityKind : Type := Report | Actor | Source.

(** The kind as it appears in a resource address. *)
Definition kind_segment (k : EntityKind) : string :=
  match k with Report => "report" | Actor => "actor" | Source => "source" end.

(** The dictionary of the cache that holds the entities of a kind. *)
Definition kind_key (k : EntityKind) : CacheKey :=
  match k with Report => ThreatReports | Actor => ThreatActors | Source => Sources end.

Definition display_field (k : EntityKind) : string :=
  match k with Report => "title" | Actor => "main_name" | Source => "name" end.

Definition list_tool (k : EntityKind) : string :=
  match k with
  | Report => "fetch_latest_threat_reports"
  | Actor => "fetch_threat_actors"
  | Source => "fetch_sources"
  end.

Definition detail_tool (k : EntityKind) : string :=
  match k with
  | Report => "fetch_threat_report_details"
  | Actor => "fetch_threat_actor_details"
  | Source => "fetch_source_details"
  end.

Definition id_argument (k : EntityKind) : string :=
  match k with Report => "report_id" | Actor => "actor_id" | Source => "source_id" end.

Definition six_tools : list string :=
  [list_tool Report; detail_tool Report; list_tool Actor; detail_tool Actor;
   list_tool Source; detail_tool Source].

(** The upstream call of a list operation and of a detail operation. *)
Definition entries_url (k : EntityKind) : string :=
  match k with
  | Report => ORKL_BASE_URL ++ "/library/entries?limit=5&order_by=created_at&order=desc"
  | Actor => ORKL_BASE_URL ++ "/ta/entries"
  | Source => ORKL_BASE_URL ++ "/source/entries"
  end.

Definition entry_url (k : EntityKind) (i : string) : string :=
  match k with
  | Report => ORKL_BASE_URL ++ "/library/entry/" ++ i
  | Actor => ORKL_BASE_URL ++ "/ta/entry/" ++ i
  | Source => ORKL_BASE_URL ++ "/source/entry/" ++ i
  end.

(** The fault conditions, by the exception that carries them. *)
Definition InvalidAddress (scheme : string) : exn :=
  ValueError ("Unsupported URI scheme: " ++ scheme).
Definition UnknownResourceType (segment : string) : exn :=
  ValueError ("Unknown resource type: " ++ segment).
Definition MissingArgument (argument : string) : exn :=
  ValueError (argument ++ " is required.").
Definition UnknownTool (name : string) : exn :=
  ValueError ("Unknown tool: " ++ name).

(** [t] occurs in [s]. *)
Definition occurs_in (t s : string) : Prop := exists a b, s = a ++ t ++ b.

(** The state after one more upstream request and no cache write. *)
Definition logged (st : State) (url : string) : State :=
  {| cache := cache st; requests := (requests st ++ [url])%list |}.

(** The state after [cache[kind][k] = v]. *)
Definition stored (st : State) (kind : EntityKind) (k v : JSON) : State :=
  {| cache := cache_with (cache st) (kind_key kind)
                (dict_set (cache_get (cache st) (kind_key kind)) k v);
     requests := requests st |}.

Definition summary_label (k : EntityKind) : string :=
  match k with Report => "Title" | Actor => "Name" | Source => "Name" end.

(** One line of a list operation's text, read off an element. *)
Definition summary_line (k : EntityKind) (item : JSON) : Exc string :=
  (id <- getitem item "id" ;;
   shown <- getitem item (display_field k) ;;
   ok ("ID: " ++ str id ++ ", " ++ summary_label k ++ ": " ++ str shown))%exc.

(** The body of the loop of a list operation: [cache[...][item["id"]] = item]. *)
Definition store (k : EntityKind) (item : JSON) : M unit :=
  (id <- lift (getitem item "id") ;;
   cache_setitem (kind_key k) id item)%tool.

(** The six branches of [handle_call_tool] are two programs, each run at the
    three kinds. *)
Definition list_operation (client : Client) (k : EntityKind) : M (list TextContent) :=
  (response <- client_get client (entries_url k) ;;
   if status_code response =? 200 then
     body <- lift (json response) ;;
     data <- lift (get body "data" (JArr [])) ;;
     items <- lift (iter data) ;;
     for_each (store k) items ;;
     lines <- lift (comprehension (summary_line k) items) ;;
     ret [text_content (join LF lines)]
   else ret (error_content response))%tool.

Definition detail_operation (client : Client) (k : EntityKind)
  (arguments : option (list (string * string))) : M (list TextContent) :=
  (supplied <- lift (arguments_get arguments (id_argument k)) ;;
   if negb (truthy supplied) then
     lift (raise (MissingArgument (id_argument k)))
   else
     let i := match supplied with Some s => s | None => "" end in
     response <- client_get client (entry_url k i) ;;
     if status_code response =? 200 then
       body <- lift (json response) ;;
       details <- lift (get body "data" (JObj [])) ;;
       cache_setitem (kind_key k) (JStr i) details ;;
       ret [text_content (dumps details)]
     else ret (error_content response))%tool.

(** The record a detail response carries: its [data] field, or the empty
    object when the field is absent. *)
Definition carried (fields : list (string * JSON)) : JSON :=
  match assoc "data" fields with
  | Some x => x
  | None => JObj []
  end.

(** *** Elements of a list response *)

(** The element's own id, and the field a listing shows; [None] stands in
    where the element has no such field. *)
Definition item_id (item : JSON) : JSON :=
  match getitem item "id" with
  | inr id => id
  | inl _ => JNull
  end.

Definition item_shown (k : EntityKind) (item : JSON) : JSON :=
  match getitem item (display_field k) with
  | inr shown => shown
  | inl _ => JNull
  end.

(** The element is an object with an [id] usable as a dictionary key. *)
Definition has_id (item : JSON) : bool :=
  match getitem item "id" with
  | inr id => hashable id
  | inl _ => false
  end.

(** The element is an object with the display field of its kind. *)
Definition has_display (k : EntityKind) (item : JSON) : bool :=
  match getitem item (display_field k) with
  | inr _ => true
  | inl _ => false
  end.

(** A record as the catalog is expected to send it. *)
Definition well_formed (k : EntityKind) (item : JSON) : bool :=
  has_id item && has_display k item.

(** The summary line of an element. *)
Definition line (k : EntityKind) (item : JSON) : string :=
  "ID: " ++ str (item_id item) ++ ", " ++ summary_label k ++ ": " ++ str (item_shown k item).

(** The dictionary after the elements were written one by one, each under
    its own id. *)
Definition put_all (items : list JSON) (d : dict) : dict :=
  fold_left (fun d item => dict_set d (item_id item) item) items d.

(** The state after a list operation for [k] wrote [items]. *)
Definition written (st : State) (k : EntityKind) (items : list JSON) : State :=
  {| cache := cache_with (cache st) (kind_key k)
                (put_all items (cache_get (cache st) (kind_key k)));
     requests := requests st |}.

(** The last of [items] whose id is [key]. *)
Fixpoint last_record (key : JSON) (items : list JSON) : option JSON :=
  match items with
  | [] => None
  | item :: rest =>
      match last_record key rest with
      | Some v => Some v
      | None => if key_eqb (item_id item) key then Some item else None
      end
  end.

(** The ids in the order in which each was first seen. *)
Fixpoint first_seen (ids : list JSON) : list JSON :=
  match ids with
  | [] => []
  | id :: rest => id :: filter (fun x => negb (key_eqb id x)) (first_seen rest)
  end.

(** No two of the keys are equal. *)
Fixpoint distinct (l : list JSON) : bool :=
  match l with
  | [] => true
  | k :: l' => negb (key_mem k l') && distinct l'
  end.

(** The elements of a list response: those of its [data] array, none when
    the field is absent; a [data] field that is no array has none to offer. *)
Definition listed (fields : list (string * JSON)) : option (list JSON) :=
  match assoc "data" fields with
  | None => Some []
  | Some (JArr items) => Some items
  | Some _ => None
  end.

(** *** Histories of list operations *)

Definition kind_eqb (a b : EntityKind) : bool :=
  match a, b with
  | Report, Report | Actor, Actor | Source, Source => true
  | _, _ => false
  end.

(** The elements a list operation for [k] visits against [client]: those of
    the [data] field of a 200 answer, none otherwise. *)
Definition served (client : Client) (k : EntityKind) : list JSON :=
  match client (entries_url k) with
  | inr response =>
      if status_code response =? 200 then
        match (body <- json response ;;
               data <- get body "data" (JArr []) ;;
               iter data)%exc with
        | inr items => items
        | inl _ => []
        end
      else []
  | inl _ => []
  end.

(** States reached from the idle server by list-operation calls that all
    returned, with the history of what each call was served. *)
Inductive list_run : list (EntityKind * list JSON) -> State -> Prop :=
| run_idle : list_run [] {| cache := cache_init; requests := [] |}
| run_call (history : list (EntityKind * list JSON)) (st st' : State)
    (client : Client) (k : EntityKind) (arguments : option (list (string * string)))
    (result : list TextContent) :
    list_run history st ->
    handle_call_tool client (list_tool k) arguments st = (ok result, st') ->
    list_run (history ++ [(k, served client k)]) st'.

(** All elements of kind [k] seen along a history, oldest first. *)
Definition seen (k : EntityKind) (history : list (EntityKind * list JSON)) : list JSON :=
  flat_map (fun call => if kind_eqb k (fst call) then snd call else []) history.

(** What the cache should hold for [k] after a history: one entry per id, in
    first-seen order, each with the last record seen under that id. *)
Definition entries (items : list JSON) : dict :=
  map (fun id => (id, match last_record id items with
                      | Some v => v
                      | None => JNull
                      end))
      (first_seen (map item_id items)).

Definition name_prefix (k : EntityKind) : string :=
  match k with
  | Report => "Threat Report: "
  | Actor => "Threat Actor: "
  | Source => "Source: "
  end.

Definition description_prefix (k : EntityKind) : string :=
  match k with
  | Report => "Threat report titled "
  | Actor => "Threat actor known as "
  | Source => "Source "
  end.

(** The resource that lists a cached entry. *)
Definition resource_of (k : EntityKind) (entry : JSON * JSON) : Resource :=
  {| uri := "threat://" ++ kind_segment k ++ "/" ++ str (fst entry);
     name := name_prefix k ++ str (item_shown k (snd entry));
     description := description_prefix k ++ str (item_shown k (snd entry));
     mimeType := "application/json" |}.

(** The comprehension of [handle_list_resources] for each kind. *)
Definition kind_resource (k : EntityKind) : JSON * JSON -> Exc Resource :=
  match k with
  | Report => report_resource
  | Actor => actor_resource
  | Source => source_resource
  end.

(** The listing the specification asks for after a history. *)
Definition listing (history : list (EntityKind * list JSON)) : list Resource :=
  (map (resource_of Report) (entries (seen Report history))
   ++ map (resource_of Actor) (entries (seen Actor history))
   ++ map (resource_of Source) (entries (seen Source history)))%list.

(** *** What a call may write *)

(** The record a detail operation for [k] would write against [client]: the
    [data] field of a 200 answer, the empty object when that answer has no
    such field; nothing when the call does not get that far. *)
Definition delivered (client : Client) (k : EntityKind)
  (arguments : option (list (string * string))) : list JSON :=
  match arguments_get arguments (id_argument k) with
  | inr (Some i) =>
      match client (entry_url k i) with
      | inr response =>
          if status_code response =? 200 then
            match (body <- json response ;; get body "data" (JObj []))%exc with
            | inr details => [details]
            | inl _ => []
            end
          else []
      | inl _ => []
      end
  | _ => []
  end.

(** The records of kind [k] that reach the server in one tool call. *)
Definition arriving (client : Client) (name : string)
  (arguments : option (list (string * string))) (k : EntityKind) : list JSON :=
  if String.eqb name (list_tool k) then served client k
  else if String.eqb name (detail_tool k) then delivered client k arguments
  else [].

(** Cache [c'] differs from [c] at most by entries of kind [k] that hold one
    of [items]. *)
Definition only_adds (c c' : Cache) (k : EntityKind) (items : list JSON) : Prop :=
  (forall key, key <> kind_key k -> cache_get c' key = cache_get c key)
  /\ (forall key v,
         dict_lookup (cache_get c' (kind_key k)) key = Some v ->
         dict_lookup (cache_get c (kind_key k)) key = Some v \/ In v items).

(** Every entry of the cache has the display field of its kind. *)
Definition all_display (c : Cache) : bool :=
  forallb (has_display Report) (map snd (threat_reports c))
  && forallb (has_display Actor) (map snd (threat_actors c))
  && forallb (has_display Source) (map snd (sources c)).

(** The listing of a cache, entry by entry. *)
Definition listing_of (c : Cache) : list Resource :=
  (map (resource_of Report) (threat_reports c)
   ++ map (resource_of Actor) (threat_actors c)
   ++ map (resource_of Source) (sources c))%list.

(** A test on keys that cannot tell equal keys apart. *)
Definition respects (p : JSON -> bool) : Prop :=
  forall a b, key_eqb a b = true -> p a = p b.

End Spec.

(** ** Sample states and catalogs *)

Module Samples.
Import Py Orkl Spec.

(** The server before any call. *)
Definition idle_state : State := {| cache := cache_init; requests := [] |}.

(** A catalog that answers every request with status 500 and body [boom]. *)
Definition boom_response : Response :=
  {| status_code := 500; response_text := "boom"; json := raise JSONDecodeError |}.
Definition boom_client : Client := fun _ => ok boom_response.

(** A small catalog: two reports and one actor in its lists; report [r1]
    in full, report [r2] answered without a [data] field, report [r3] without
    a title; anything else answers 500. *)
Definition report_one : JSON := JObj [("id", JStr "r1"); ("title", JStr "Report One")].
Definition report_two : JSON := JObj [("id", JStr "r2"); ("title", JStr "Report Two")].
Definition actor_one : JSON := JObj [("id", JStr "a1"); ("main_name", JStr "APT One")].
Definition untitled : JSON := JObj [("id", JStr "r3")].

Definition answer (body : JSON) : Exc Response :=
  ok {| status_code := 200; response_text := dumps body; json := ok body |}.

Definition catalog : Client := fun url =>
  if String.eqb url (entries_url Report) then
    answer (JObj [("data", JArr [report_one; report_two])])
  else if String.eqb url (entries_url Actor) then
    answer (JObj [("data", JArr [actor_one])])
  else if String.eqb url (entry_url Report "r1") then
    answer (JObj [("data", report_one)])
  else if String.eqb url (entry_url Report "r2") then
    answer (JObj [])
  else if String.eqb url (entry_url Report "r3") then
    answer (JObj [("data", untitled)])
  else ok boom_response.

(** The server after [fetch_latest_threat_reports] against the catalog. *)
Definition reports_listed : State :=
  snd (handle_call_tool catalog "fetch_latest_threat_reports" None idle_state).

(** The server after the detail of report [r3], which has no title, was
    fetched. *)
Definition untitled_cached : State :=
  snd (handle_call_tool catalog "fetch_threat_report_details"
         (Some [("report_id", "r3")]) idle_state).

(** The server after the detail of report [r1] was fetched. *)
Definition detail_cached : State :=
  snd (handle_call_tool catalog "fetch_threat_report_details"
         (Some [("report_id", "r1")]) idle_state).

(** A catalog whose list of reports has a record without a title. *)
Definition untitled_catalog : Client := fun _ =>
  answer (JObj [("data", JArr [report_one; untitled])]).

End Samples.

Import Py Orkl Spec Samples.


(** ** The advertised tools *)

Module Tools.
Import Py Orkl Spec.

(** [types.Tool]. *)
Record Tool : Type := {
  name : string;
  description : string;
  inputSchema : JSON
}.

(** [list_tools]: the six tools with their input schemas. *)
Definition list_tools : list Tool :=
  [ {| name := "fetch_latest_threat_reports";
       description := "Fetch the latest threat reports from ORKL.";
       inputSchema := JObj [("type", JStr "object"); ("properties", JObj []);
                            ("required", JArr [])] |};
    {| name := "fetch_threat_report_details";
       description := "Fetch detailed information for a specific threat report by ID.";
       inputSchema :=
         JObj [("type", JStr "object");
               ("properties",
                JObj [("report_id",
                       JObj [("type", JStr "string");
                             ("description", JStr "The ID of the threat report to fetch.")])]);
               ("required", JArr [JStr "report_id"])] |};
    {| name := "fetch_threat_actors";
       description := "Fetch the list of threat actors.";
       inputSchema := JObj [("type", JStr "object"); ("properties", JObj []);
                            ("required", JArr [])] |};
    {| name := "fetch_threat_actor_details";
       description := "Fetch detailed information for a specific threat actor by ID.";
       inputSchema :=
         JObj [("type", JStr "object");
               ("properties",
                JObj [("actor_id",
                       JObj [("type", JStr "string");
                             ("description", JStr "The ID of the threat actor to fetch.")])]);
               ("required", JArr [JStr "actor_id"])] |};
    {| name := "fetch_sources";
       description := "Fetch the list of sources.";
       inputSchema := JObj [("type", JStr "object"); ("properties", JObj []);
                            ("required", JArr [])] |};
    {| name := "fetch_source_details";
       description := "Fetch detailed information for a specific source by ID.";
       inputSchema :=
         JObj [("type", JStr "object");
               ("properties",
                JObj [("source_id",
                       JObj [("type", JStr "string");
                             ("description", JStr "The ID of the source to fetch.")])]);
               ("required", JArr [JStr "source_id"])] |} ].

(** The argument names a schema lists under [required]. *)
Fixpoint strings (l : list JSON) : option (list string) :=
  match l with
  | [] => Some []
  | JStr s :: l' =>
      match strings l' with
      | Some ss => Some (s :: ss)
      | None => None
      end
  | _ :: _ => None
  end.

Definition required (t : Tool) : option (list string) :=
  match getitem (inputSchema t) "required" with
  | inr (JArr l) => strings l
  | _ => None
  end.

(** The argument names a schema declares under [properties]. *)
Definition declared (t : Tool) : option (list string) :=
  match getitem (inputSchema t) "properties" with
  | inr (JObj fields) => Some (map fst fields)
  | _ => None
  end.

End Tools.

(** ** Further vocabulary *)

Module Behaviour.
Import Py Orkl Spec.

(** The fault of the loop of a list operation at an element it cannot
    store: the fault of [item["id"]], or [TypeError] for an unhashable id. *)
Definition store_fault (item : JSON) : exn :=
  match getitem item "id" with
  | inl e => e
  | inr _ => TypeError
  end.

(** Every dictionary of [c'] has the keys of [c], in their order, first. *)
Definition keeps_keys (c c' : Cache) : Prop :=
  forall key, exists tail,
    keys (cache_get c' key) = (keys (cache_get c key) ++ tail)%list.

(** The keys of a dictionary are hashable and no two are equal, as in every
    Python dictionary. *)
Definition dict_ok (d : dict) : bool :=
  distinct (keys d) && forallb hashable (keys d).

(** The key is a [str]. *)
Definition is_text (k : JSON) : bool :=
  match k with
  | JStr _ => true
  | _ => false
  end.

Definition cache_ok (c : Cache) : bool :=
  dict_ok (threat_reports c) && dict_ok (threat_actors c) && dict_ok (sources c).


(** States reached from the idle server by tool calls of any kind, whatever
    their outcome. *)
Inductive reachable : State -> Prop :=
| reach_idle : reachable {| cache := cache_init; requests := [] |}
| reach_call (st : State) (client : Client) (name : string)
    (arguments : option (list (string * string))) :
    reachable st ->
    reachable (snd (handle_call_tool client name arguments st)).

End Behaviour.

(** ** More sample catalogs *)

Module MoreSamples.
Import Py Orkl Spec Samples.

(** A catalog that cannot be reached. *)
Definition down_client : Client := fun _ => raise (HTTPError "connection refused").

(** A catalog answering 200 with a body that is no JSON. *)
Definition garbled_client : Client := fun _ =>
  ok {| status_code := 200; response_text := "<html>"; json := raise JSONDecodeError |}.

(** A record without an id. *)
Definition nameless : JSON := JObj [("title", JStr "No Id")].

(** A catalog whose list of reports has a record without an id in second
    place. *)
Definition nameless_catalog : Client := fun _ =>
  answer (JObj [("data", JArr [report_one; nameless; report_two])]).

(** A catalog whose [data] field is an object, not an array. *)
Definition object_catalog : Client := fun _ =>
  answer (JObj [("data", report_one)]).

(** A URL without authority, whose path holds kind and id. *)
Definition path_url (p : string) : AnyUrl :=
  {| scheme := "threat"; host := None; path := Some p |}.

(** A catalog whose reports carry numbers as ids. *)
Definition report_seven : JSON := JObj [("id", JInt 7); ("title", JStr "Seven")].
Definition numbered_catalog : Client := fun _ =>
  answer (JObj [("data", JArr [report_seven])]).

(** The server after the numbered reports were listed. *)
Definition numbered_listed : State :=
  snd (handle_call_tool numbered_catalog "fetch_latest_threat_reports" None idle_state).

End MoreSamples.

Import Behaviour MoreSamples.
(** * Properties *)

(** ** The dispatcher, branch by branch *)

Lemma call_list_tool (client : Client) (k : EntityKind) arguments :
  handle_call_tool client (list_tool k) arguments = list_operation client k.
Proof. destruct k; reflexivity. Qed.

Lemma call_detail_tool (client : Client) (k : EntityKind) arguments :
  handle_call_tool client (detail_tool k) arguments = detail_operation client k arguments.
Proof. destruct k; reflexivity. Qed.

Lemma call_other_tool (client : Client) (name : string) arguments :
  ~ In name six_tools ->
  handle_call_tool client name arguments = lift (raise (UnknownTool name)).
Proof.
  intros Hout. unfold handle_call_tool.
  repeat match goal with
         | |- context [String.eqb name ?t] =>
             destruct (String.eqb_spec name t) as [->|_];
             [exfalso; apply Hout; cbn; tauto|]
         end.
  reflexivity.
Qed.

(** ** Dictionaries *)

Section Dictionaries.

Ltac decide_keys :=
  repeat match goal with
         | b : bool |- _ => destruct b
         | H : context [Z.eqb ?n ?m] |- _ => destruct (Z.eqb_spec n m)
         | |- context [Z.eqb ?n ?m] => destruct (Z.eqb_spec n m)
         | H : context [String.eqb ?s ?t] |- _ => destruct (String.eqb_spec s t)
         | |- context [String.eqb ?s ?t] => destruct (String.eqb_spec s t)
         end;
  try reflexivity; try discriminate; try congruence; try lia.

Lemma key_eqb_refl (k : JSON) : hashable k = true -> key_eqb k k = true.
Proof.
  destruct k; cbn; intros H; try discriminate; decide_keys.
Qed.

Lemma key_eqb_sym (a b : JSON) : key_eqb a b = key_eqb b a.
Proof.
  destruct a, b; cbn; decide_keys.
Qed.

Lemma key_eqb_trans (a b c : JSON) :
  key_eqb a b = true -> key_eqb a c = key_eqb b c.
Proof.
  destruct a, b; cbn; intros H; try discriminate; destruct c; cbn; decide_keys.
Qed.

Lemma dict_lookup_set (d : dict) (k v j : JSON) :
  dict_lookup (dict_set d k v) j = if key_eqb k j then Some v else dict_lookup d j.
Proof.
  induction d as [|[k' v'] d IH]; cbn.
  - reflexivity.
  - destruct (key_eqb k' k) eqn:Hk; cbn.
    + rewrite (key_eqb_trans _ _ j Hk). destruct (key_eqb k j); reflexivity.
    + rewrite IH. destruct (key_eqb k' j) eqn:Hj; [|reflexivity].
      destruct (key_eqb k j) eqn:Hkj; [|reflexivity].
      rewrite key_eqb_sym in Hkj. rewrite (key_eqb_trans _ _ k Hj) in Hk.
      congruence.
Qed.

(** A write keeps every earlier key where it is; a new key goes last. *)
Lemma keys_set (d : dict) (k v : JSON) :
  keys (dict_set d k v) =
  if key_mem k (keys d) then keys d else (keys d ++ [k])%list.
Proof.
  unfold keys, key_mem. induction d as [|[k' v'] d IH]; cbn.
  - reflexivity.
  - destruct (key_eqb k' k); cbn; [reflexivity|].
    rewrite IH. destruct (existsb _ _); reflexivity.
Qed.

Lemma cache_get_with (c : Cache) (key key' : CacheKey) (d : dict) :
  cache_get (cache_with c key d) key' =
  if match key, key' with
     | ThreatReports, ThreatReports | ThreatActors, ThreatActors | Sources, Sources => true
     | _, _ => false
     end
  then d else cache_get c key'.
Proof. destruct key, key'; reflexivity. Qed.

Lemma cache_get_with_same (c : Cache) (key : CacheKey) (d : dict) :
  cache_get (cache_with c key d) key = d.
Proof. destruct key; reflexivity. Qed.

Lemma cache_get_with_other (c : Cache) (key key' : CacheKey) (d : dict) :
  key' <> key -> cache_get (cache_with c key d) key' = cache_get c key'.
Proof. destruct key, key'; intros H; try reflexivity; congruence. Qed.

End Dictionaries.

(** ** Faults raised before any upstream call *)

(** C9. A tool name outside the six operations makes the dispatcher fail
    with the unknown-tool condition, whatever the arguments; nothing is requested
    upstream and the cache keeps its value. *)
Theorem unknown_tool_rejected (client : Client) (name : string)
  (arguments : option (list (string * string))) (st : State) :
  ~ In name six_tools ->
  handle_call_tool client name arguments st = (raise (UnknownTool name), st).
Proof.
  intros Hout. rewrite (call_other_tool client arguments Hout). reflexivity.
Qed.

Lemma unknown_tool_rejected_witness :
  handle_call_tool boom_client "fetch_everything" (Some [("report_id", "r1")]) idle_state
  = (raise (ValueError "Unknown tool: fetch_everything"), idle_state).
Proof.
  apply (unknown_tool_rejected boom_client (name := "fetch_everything")).
  cbn. intuition discriminate.
Defined.

(** C4. A detail tool whose argument mapping lacks the identifier fails with
    the missing-argument condition; the state, which holds the request log and the
    cache, is the one before the call: no upstream call, no cache write. *)
Theorem missing_argument_before_network (client : Client) (k : EntityKind)
  (d : list (string * string)) (st : State) :
  assoc (id_argument k) d = None ->
  handle_call_tool client (detail_tool k) (Some d) st
  = (raise (MissingArgument (id_argument k)), st).
Proof.
  intros Hnone. rewrite call_detail_tool.
  unfold detail_operation, bind, lift, arguments_get. cbn.
  rewrite Hnone. reflexivity.
Qed.

Lemma missing_argument_before_network_witness :
  handle_call_tool boom_client "fetch_threat_report_details" (Some [("actor_id", "a1")])
    idle_state
  = (raise (ValueError "report_id is required."), idle_state).
Proof.
  apply (missing_argument_before_network boom_client Report [("actor_id", "a1")]).
  reflexivity.
Defined.

(** An identifier supplied as the empty string counts as missing too. *)
Lemma empty_argument_before_network (client : Client) (k : EntityKind)
  (d : list (string * string)) (st : State) :
  assoc (id_argument k) d = Some "" ->
  handle_call_tool client (detail_tool k) (Some d) st
  = (raise (MissingArgument (id_argument k)), st).
Proof.
  intros Hempty. rewrite call_detail_tool.
  unfold detail_operation, bind, lift, arguments_get. cbn.
  rewrite Hempty. reflexivity.
Qed.

(** Without any argument mapping ([arguments] is [None]) the lookup itself
    raises: still no upstream call and no cache write, but the fault is an
    [AttributeError]. *)
Lemma absent_arguments_before_network (client : Client) (k : EntityKind) (st : State) :
  handle_call_tool client (detail_tool k) None st = (raise AttributeError, st).
Proof. rewrite call_detail_tool. reflexivity. Qed.

(** ** Upstream answers other than 200 *)

Lemma occurs_in_middle (a t b : string) : occurs_in t (a ++ t ++ b).
Proof. exists a, b. reflexivity. Qed.

Lemma append_assoc (a b c : string) : (a ++ b) ++ c = a ++ b ++ c.
Proof. induction a as [|x a IH]; cbn; [reflexivity | now rewrite IH]. Qed.

Lemma append_empty_r (a : string) : a ++ "" = a.
Proof. induction a as [|x a IH]; cbn; [reflexivity | now rewrite IH]. Qed.

Lemma list_operation_error (client : Client) (k : EntityKind) (response : Response)
  (st : State) :
  client (entries_url k) = ok response ->
  status_code response <> 200 ->
  list_operation client k st = (ok (error_content response), logged st (entries_url k)).
Proof.
  intros Hget Hstatus. unfold list_operation, bind, client_get.
  rewrite Hget. cbn. apply Z.eqb_neq in Hstatus. rewrite Hstatus. reflexivity.
Qed.

Lemma detail_operation_error (client : Client) (k : EntityKind) (response : Response)
  (d : list (string * string)) (i : string) (st : State) :
  assoc (id_argument k) d = Some i ->
  i <> "" ->
  client (entry_url k i) = ok response ->
  status_code response <> 200 ->
  detail_operation client k (Some d) st
  = (ok (error_content response), logged st (entry_url k i)).
Proof.
  intros Harg Hi Hget Hstatus.
  unfold detail_operation, bind, lift, arguments_get, client_get. cbn.
  rewrite Harg. cbn. apply String.eqb_neq in Hi. rewrite Hi. cbn.
  rewrite Hget. cbn. apply Z.eqb_neq in Hstatus. rewrite Hstatus. reflexivity.
Qed.

(** C3. When the upstream call of any of the six tools answers with a status
    [s] other than 200 and body [b], the call raises nothing: it returns one
    text block, [Error: s b], in which [s] and [b] occur, and the only change
    of state is the logged request; the cache is the one before the call. A
    detail tool reaches its upstream call when its identifier is supplied and
    is not empty. *)
Theorem upstream_error_recovered (client : Client) (k : EntityKind)
  (response : Response) (st : State) :
  status_code response <> 200 ->
  (forall arguments,
      client (entries_url k) = ok response ->
      handle_call_tool client (list_tool k) arguments st
      = (ok (error_content response), logged st (entries_url k)))
  /\ (forall d i,
         assoc (id_argument k) d = Some i ->
         i <> "" ->
         client (entry_url k i) = ok response ->
         handle_call_tool client (detail_tool k) (Some d) st
         = (ok (error_content response), logged st (entry_url k i)))
  /\ (forall url, cache (logged st url) = cache st)
  /\ exists t,
      error_content response = [text_content t]
      /\ occurs_in (str_int (status_code response)) t
      /\ occurs_in (response_text response) t.
Proof.
  intros Hstatus. repeat split.
  - intros arguments Hget. rewrite call_list_tool.
    now apply list_operation_error.
  - intros d i Harg Hi Hget. rewrite call_detail_tool.
    now apply detail_operation_error.
  - eexists. split; [reflexivity|]. split.
    + apply occurs_in_middle.
    + exists ("Error: " ++ str_int (status_code response) ++ " "), "".
      rewrite append_empty_r, !append_assoc. reflexivity.
Qed.

(** The instance named by the specification: [fetch_sources] against a
    catalog answering 500 and [boom]. *)
Lemma upstream_error_recovered_witness :
  handle_call_tool boom_client "fetch_sources" None idle_state
  = (ok [text_content "Error: 500 boom"],
     {| cache := cache_init; requests := ["https://orkl.eu/api/v1/source/entries"] |})
  /\ occurs_in "500" "Error: 500 boom" /\ occurs_in "boom" "Error: 500 boom".
Proof.
  assert (Hstatus : status_code boom_response <> 200) by discriminate.
  destruct (@upstream_error_recovered boom_client Source boom_response idle_state Hstatus)
    as (Hlist & _ & _ & _).
  split; [exact (Hlist None eq_refl)|].
  split; [exists "Error: ", " boom" | exists "Error: 500 ", ""]; reflexivity.
Defined.

(** ** Detail operations *)

Lemma detail_operation_success (client : Client) (k : EntityKind) (response : Response)
  (d : list (string * string)) (i : string) (body details : JSON) (st : State) :
  assoc (id_argument k) d = Some i ->
  i <> "" ->
  client (entry_url k i) = ok response ->
  status_code response = 200 ->
  json response = ok body ->
  get body "data" (JObj []) = ok details ->
  detail_operation client k (Some d) st
  = (ok [text_content (dumps details)],
     stored (logged st (entry_url k i)) k (JStr i) details).
Proof.
  intros Harg Hi Hget Hstatus Hjson Hdata.
  unfold detail_operation, bind, lift, arguments_get, client_get. cbn.
  rewrite Harg. cbn. apply String.eqb_neq in Hi. rewrite Hi. cbn.
  rewrite Hget. cbn. rewrite Hstatus. cbn. rewrite Hjson. cbn. rewrite Hdata. reflexivity.
Qed.

(** C10. A detail call that succeeds (identifier supplied, status 200, body a
    JSON object) writes the carried record, or the empty object when the body
    has no [data] field, under the supplied identifier in the dictionary of its
    kind, whatever was there before. Every other key of that dictionary and
    every key of the other two dictionaries reads as before, and the keys
    present before the call keep their order: a new key goes last. *)
Theorem detail_fetch_frame (client : Client) (k : EntityKind) (response : Response)
  (d : list (string * string)) (i : string) (fields : list (string * JSON))
  (st : State) :
  assoc (id_argument k) d = Some i ->
  i <> "" ->
  client (entry_url k i) = ok response ->
  status_code response = 200 ->
  json response = ok (JObj fields) ->
  exists st',
    handle_call_tool client (detail_tool k) (Some d) st
    = (ok [text_content (dumps (carried fields))], st')
    /\ dict_lookup (cache_get (cache st') (kind_key k)) (JStr i) = Some (carried fields)
    /\ (forall key j,
           key <> kind_key k \/ key_eqb j (JStr i) = false ->
           dict_lookup (cache_get (cache st') key) j
           = dict_lookup (cache_get (cache st) key) j)
    /\ keys (cache_get (cache st') (kind_key k))
       = (if key_mem (JStr i) (keys (cache_get (cache st) (kind_key k)))
          then keys (cache_get (cache st) (kind_key k))
          else keys (cache_get (cache st) (kind_key k)) ++ [JStr i])%list
    /\ (forall key, key <> kind_key k ->
                    cache_get (cache st') key = cache_get (cache st) key).
Proof.
  intros Harg Hi Hget Hstatus Hjson.
  exists (stored (logged st (entry_url k i)) k (JStr i) (carried fields)).
  split.
  { rewrite call_detail_tool.
    apply detail_operation_success with (response := response) (body := JObj fields);
      try assumption.
    unfold get, carried. destruct (assoc "data" fields); reflexivity. }
  cbn [stored logged cache]. split; [|split; [|split]].
  - rewrite cache_get_with_same, dict_lookup_set.
    cbn. now rewrite String.eqb_refl.
  - intros key j [Hkey | Hj].
    + now rewrite cache_get_with_other.
    + destruct k, key; cbn; try reflexivity;
        now rewrite dict_lookup_set, key_eqb_sym, Hj.
  - now rewrite cache_get_with_same, keys_set.
  - intros key Hkey. now rewrite cache_get_with_other.
Qed.

(** Report [r2] is cached with its title; the detail answer for [r2] has no
    [data] field, and the empty object takes the entry's place. *)
Lemma detail_fetch_frame_witness :
  exists st',
    handle_call_tool catalog "fetch_threat_report_details" (Some [("report_id", "r2")])
      reports_listed
    = (ok [text_content "{}"], st')
    /\ dict_lookup (threat_reports (cache st')) (JStr "r2") = Some (JObj [])
    /\ dict_lookup (threat_reports (cache st')) (JStr "r1") = Some report_one
    /\ keys (threat_reports (cache st')) = [JStr "r1"; JStr "r2"].
Proof.
  destruct (@detail_fetch_frame catalog Report
              {| status_code := 200; response_text := "{}"; json := ok (JObj []) |}
              [("report_id", "r2")] "r2" [] reports_listed
              eq_refl ltac:(discriminate) eq_refl eq_refl eq_refl)
    as (st' & Hcall & Hnew & Hframe & Hkeys & _).
  exists st'. split; [exact Hcall|]. split; [exact Hnew|]. split.
  - change (threat_reports (cache st')) with (cache_get (cache st') ThreatReports).
    rewrite (Hframe ThreatReports (JStr "r1")); [reflexivity|now right].
  - exact Hkeys.
Defined.

(** ** List operations *)

Section ListOperations.

Variable k : EntityKind.

Lemma cache_with_get (c : Cache) (key : CacheKey) :
  cache_with c key (cache_get c key) = c.
Proof. destruct c, key; reflexivity. Qed.

Lemma cache_with_with (c : Cache) (key : CacheKey) (d d' : dict) :
  cache_with (cache_with c key d) key d' = cache_with c key d'.
Proof. destruct key; reflexivity. Qed.

Lemma written_nil (st : State) : written st k [] = st.
Proof.
  unfold written. cbn. rewrite cache_with_get. now destruct st.
Qed.

Lemma written_cons (st : State) (item : JSON) (items : list JSON) :
  written (stored st k (item_id item) item) k items = written st k (item :: items).
Proof.
  unfold written, stored. cbn. now rewrite cache_get_with_same, cache_with_with.
Qed.

(** One turn of the loop: the element is written under its own id, or the
    loop stops with the state it had. *)
Lemma store_step (item : JSON) (st : State) :
  store k item st =
  if has_id item then (ok tt, stored st k (item_id item) item)
  else (match getitem item "id" with inl e => inl e | inr _ => inl TypeError end, st).
Proof.
  unfold store, bind, lift, cache_setitem, dict_setitem, has_id, item_id, stored.
  destruct (getitem item "id") as [e|id]; [reflexivity|].
  destruct (hashable id); reflexivity.
Qed.

Lemma for_each_store (items : list JSON) (st : State) :
  forallb has_id items = true ->
  for_each (store k) items st = (ok tt, written st k items).
Proof.
  revert st. induction items as [|item items IH]; intros st Hall.
  - now rewrite written_nil.
  - cbn in Hall. apply andb_prop in Hall as [Hid Hrest].
    cbn. unfold bind. rewrite store_step, Hid, (IH _ Hrest).
    now rewrite written_cons.
Qed.

Lemma for_each_store_returns (items : list JSON) (st st' : State) (u : unit) :
  for_each (store k) items st = (inr u, st') -> forallb has_id items = true.
Proof.
  revert st. induction items as [|item items IH]; intros st Hrun; [reflexivity|].
  cbn in Hrun. unfold bind in Hrun. rewrite store_step in Hrun.
  destruct (has_id item) eqn:Hid.
  - cbn. rewrite Hid. exact (IH _ Hrun).
  - destruct (getitem item "id"); discriminate.
Qed.

Lemma summary_line_step (item : JSON) :
  summary_line k item =
  match getitem item "id" with
  | inl e => inl e
  | inr _ =>
      match getitem item (display_field k) with
      | inl e => inl e
      | inr _ => ok (line k item)
      end
  end.
Proof.
  unfold summary_line, line, item_id, item_shown, ebind.
  destruct (getitem item "id"); [reflexivity|].
  destruct (getitem item (display_field k)); reflexivity.
Qed.

Lemma summary_lines (items : list JSON) :
  forallb (well_formed k) items = true ->
  comprehension (summary_line k) items = ok (map (line k) items).
Proof.
  induction items as [|item items IH]; intros Hall; [reflexivity|].
  cbn in Hall. apply andb_prop in Hall as [Hitem Hrest].
  apply andb_prop in Hitem as [Hid Hshown].
  cbn. rewrite summary_line_step, (IH Hrest).
  unfold has_id in Hid. unfold has_display in Hshown.
  destruct (getitem item "id"); [discriminate|].
  destruct (getitem item (display_field k)); [discriminate|]. reflexivity.
Qed.

Lemma summary_lines_return (items : list JSON) (lines : list string) :
  comprehension (summary_line k) items = inr lines ->
  forallb (has_display k) items = true.
Proof.
  revert lines. induction items as [|item items IH]; intros lines Hrun; [reflexivity|].
  cbn in Hrun. rewrite summary_line_step in Hrun. cbn. unfold has_display at 1.
  destruct (getitem item "id"); [discriminate|].
  destruct (getitem item (display_field k)); [discriminate|].
  cbn in Hrun. destruct (comprehension (summary_line k) items) eqn:Hrest; [discriminate|].
  exact (IH _ eq_refl).
Qed.

Lemma forallb_well_formed (items : list JSON) :
  forallb has_id items = true ->
  forallb (has_display k) items = true ->
  forallb (well_formed k) items = true.
Proof.
  induction items as [|item items IH]; cbn; [reflexivity|].
  intros [Hid Hids]%andb_prop [Hshown Hshowns]%andb_prop.
  rewrite IH by assumption. unfold well_formed. now rewrite Hid, Hshown.
Qed.

Lemma well_formed_has_id (items : list JSON) :
  forallb (well_formed k) items = true -> forallb has_id items = true.
Proof.
  induction items as [|item items IH]; cbn; [reflexivity|].
  intros [[Hid _]%andb_prop Hrest]%andb_prop. now rewrite Hid, IH.
Qed.

(** A list operation on a 200 answer whose elements are well formed. *)
Lemma list_operation_success (client : Client) (response : Response)
  (body data : JSON) (items : list JSON) (st : State) :
  client (entries_url k) = ok response ->
  status_code response = 200 ->
  json response = ok body ->
  get body "data" (JArr []) = ok data ->
  iter data = ok items ->
  forallb (well_formed k) items = true ->
  list_operation client k st
  = (ok [text_content (join LF (map (line k) items))],
     written (logged st (entries_url k)) k items).
Proof.
  intros Hget Hstatus Hjson Hdata Hiter Hall.
  unfold list_operation, bind, client_get, lift. rewrite Hget. cbn.
  rewrite Hstatus. cbn. rewrite Hjson. cbn. rewrite Hdata. cbn. rewrite Hiter. cbn.
  rewrite (for_each_store _ _ (well_formed_has_id _ Hall)).
  rewrite (summary_lines _ Hall). reflexivity.
Qed.

(** A list operation that returns wrote exactly what it was served, and what
    it was served was well formed. *)
Lemma list_operation_returns (client : Client) (st st' : State)
  (result : list TextContent) :
  list_operation client k st = (inr result, st') ->
  st' = written (logged st (entries_url k)) k (served client k)
  /\ forallb (well_formed k) (served client k) = true.
Proof.
  unfold list_operation, served, bind, client_get, lift, ebind.
  destruct (client (entries_url k)) as [e|response]; [discriminate|]. cbn.
  destruct (status_code response =? 200).
  - destruct (json response) as [e|body]; [discriminate|]. cbn.
    destruct (get body "data" (JArr [])) as [e|data]; [discriminate|]. cbn.
    destruct (iter data) as [e|items]; [discriminate|]. cbn.
    destruct (for_each (store k) items _) as [[e|[]] st1] eqn:Hloop; [discriminate|].
    pose proof (for_each_store_returns _ _ Hloop) as Hids.
    rewrite (for_each_store _ _ Hids) in Hloop. injection Hloop as <-.
    destruct (comprehension (summary_line k) items) as [e|lines] eqn:Hlines;
      [discriminate|].
    cbn. intros [= _ <-]. split; [reflexivity|].
    apply forallb_well_formed; [assumption|].
    exact (summary_lines_return _ Hlines).
  - cbn. intros [= _ <-]. now rewrite written_nil.
Qed.

End ListOperations.

(** What a run of writes leaves under each key. *)
Lemma lookup_put_all (items : list JSON) (d : dict) (key : JSON) :
  dict_lookup (put_all items d) key =
  match last_record key items with
  | Some v => Some v
  | None => dict_lookup d key
  end.
Proof.
  revert d. induction items as [|item items IH]; intros d; [reflexivity|].
  cbn. fold (put_all items (dict_set d (item_id item) item)).
  rewrite IH, dict_lookup_set.
  destruct (last_record key items); [reflexivity|].
  destruct (key_eqb (item_id item) key); reflexivity.
Qed.

Lemma last_record_sound (key : JSON) (items : list JSON) (v : JSON) :
  last_record key items = Some v ->
  In v items /\ key_eqb (item_id v) key = true.
Proof.
  induction items as [|item items IH]; cbn; [discriminate|].
  destruct (last_record key items) as [w|].
  - intros [= <-]. destruct (IH eq_refl). auto.
  - destruct (key_eqb (item_id item) key) eqn:Hkey; [|discriminate].
    intros [= <-]. auto.
Qed.

Lemma last_record_complete (items : list JSON) (item : JSON) :
  In item items -> has_id item = true ->
  exists v, last_record (item_id item) items = Some v.
Proof.
  intros Hin Hid. induction items as [|x items IH]; [contradiction|].
  cbn. destruct Hin as [->|Hin].
  - destruct (last_record (item_id item) items); [eauto|].
    rewrite key_eqb_refl; [eauto|].
    unfold has_id, item_id in *. now destruct (getitem item "id").
  - destruct (IH Hin) as [v ->]. eauto.
Qed.

(** C6. A list operation answered with status 200 and a JSON object whose
    [data] field is an array of well-formed records (or is absent: no
    records) writes every record into the dictionary of its kind under the
    record's own id, in array order, and returns one text block: the summary
    lines of the records, in array order, joined by newlines. Afterwards each
    key reads the last record sent under it, or what it read before; every
    record's id is a key; the other dictionaries are untouched. With no
    [data] field the text is empty and nothing is written. *)
Theorem list_fetch_success (client : Client) (k : EntityKind) (response : Response)
  (fields : list (string * JSON)) (items : list JSON)
  (arguments : option (list (string * string))) (st : State) :
  client (entries_url k) = ok response ->
  status_code response = 200 ->
  json response = ok (JObj fields) ->
  listed fields = Some items ->
  forallb (well_formed k) items = true ->
  let st' := written (logged st (entries_url k)) k items in
  handle_call_tool client (list_tool k) arguments st
  = (ok [text_content (join LF (map (line k) items))], st')
  /\ cache_get (cache st') (kind_key k)
     = fold_left (fun d item => dict_set d (item_id item) item) items
         (cache_get (cache st) (kind_key k))
  /\ (forall key,
         dict_lookup (cache_get (cache st') (kind_key k)) key
         = match last_record key items with
           | Some v => Some v
           | None => dict_lookup (cache_get (cache st) (kind_key k)) key
           end)
  /\ (forall item, In item items ->
         exists v, dict_lookup (cache_get (cache st') (kind_key k)) (item_id item) = Some v
                   /\ In v items /\ key_eqb (item_id v) (item_id item) = true)
  /\ (forall key, key <> kind_key k ->
         cache_get (cache st') key = cache_get (cache st) key)
  /\ (assoc "data" fields = None ->
      handle_call_tool client (list_tool k) arguments st
      = (ok [text_content ""], logged st (entries_url k))).
Proof.
  intros Hget Hstatus Hjson Hlisted Hall st'.
  assert (Hdata : exists data,
             get (JObj fields) "data" (JArr []) = ok data /\ iter data = ok items).
  { unfold listed in Hlisted. unfold get.
    destruct (assoc "data" fields) as [[| | | |l|]|]; try discriminate;
      injection Hlisted as <-; eexists; split; reflexivity. }
  destruct Hdata as (data & Hdata & Hiter).
  assert (Hcall : handle_call_tool client (list_tool k) arguments st
                  = (ok [text_content (join LF (map (line k) items))], st')).
  { rewrite call_list_tool.
    now apply list_operation_success with (response := response)
                                          (body := JObj fields) (data := data). }
  assert (Hdict : cache_get (cache st') (kind_key k)
                  = put_all items (cache_get (cache st) (kind_key k))).
  { unfold st', written, logged. cbn. now rewrite cache_get_with_same. }
  split; [exact Hcall|]. split; [exact Hdict|]. split; [|split; [|split]].
  - intros key. rewrite Hdict. apply lookup_put_all.
  - intros item Hin. rewrite Hdict, lookup_put_all.
    assert (Hid : has_id item = true).
    { apply well_formed_has_id in Hall.
      rewrite forallb_forall in Hall. now apply Hall. }
    destruct (last_record_complete items item Hin Hid) as [v Hv].
    rewrite Hv. exists v. split; [reflexivity|].
    now apply last_record_sound.
  - intros key Hkey. unfold st', written, logged. cbn.
    now rewrite cache_get_with_other.
  - intros Hnone. unfold listed in Hlisted. rewrite Hnone in Hlisted.
    injection Hlisted as <-. rewrite Hcall. unfold st'.
    now rewrite written_nil.
Qed.

Lemma list_fetch_success_witness :
  handle_call_tool catalog "fetch_latest_threat_reports" None idle_state
  = (ok [text_content ("ID: r1, Title: Report One" ++ LF ++ "ID: r2, Title: Report Two")],
     {| cache := {| threat_reports := [(JStr "r1", report_one); (JStr "r2", report_two)];
                    threat_actors := [];
                    sources := [] |};
        requests := [entries_url Report] |}).
Proof.
  pose proof (@list_fetch_success catalog Report
                {| status_code := 200;
                   response_text := dumps (JObj [("data", JArr [report_one; report_two])]);
                   json := ok (JObj [("data", JArr [report_one; report_two])]) |}
                [("data", JArr [report_one; report_two])] [report_one; report_two]
                None idle_state eq_refl eq_refl eq_refl eq_refl eq_refl) as H.
  cbv zeta in H. destruct H as [Hcall _]. exact Hcall.
Defined.

(** Outside these conditions the call can fail after it has written: a
    record without its title is stored by the loop, and the summary then
    raises. *)
Lemma list_fetch_untitled_raises :
  handle_call_tool untitled_catalog "fetch_latest_threat_reports" None idle_state
  = (raise (KeyError "title"),
     {| cache := {| threat_reports := [(JStr "r1", report_one); (JStr "r3", untitled)];
                    threat_actors := [];
                    sources := [] |};
        requests := [entries_url Report] |}).
Proof. reflexivity. Qed.

(** ** First-seen order *)

Section FirstSeen.

Lemma differs_respects (k : JSON) : respects (fun x => negb (key_eqb k x)).
Proof.
  intros a b Hab. f_equal.
  rewrite (key_eqb_sym k a), (key_eqb_sym k b). now apply key_eqb_trans.
Qed.

Lemma filter_filter_comm (p q : JSON -> bool) (l : list JSON) :
  filter p (filter q l) = filter q (filter p l).
Proof.
  induction l as [|x l IH]; [reflexivity|]. cbn.
  destruct (q x) eqn:Hq, (p x) eqn:Hp; cbn; rewrite ?Hq, ?Hp, IH; reflexivity.
Qed.

Lemma filter_absorbs (p : JSON -> bool) (a : JSON) (l : list JSON) :
  respects p -> p a = false ->
  filter p (filter (fun x => negb (key_eqb a x)) l) = filter p l.
Proof.
  intros Hp Ha. induction l as [|x l IH]; [reflexivity|]. cbn.
  destruct (key_eqb a x) eqn:Hax; cbn.
  - rewrite <- (Hp a x Hax), Ha. exact IH.
  - now rewrite IH.
Qed.

Lemma first_seen_filter (p : JSON -> bool) (l : list JSON) :
  respects p -> first_seen (filter p l) = filter p (first_seen l).
Proof.
  intros Hp. induction l as [|a l IH]; [reflexivity|]. cbn.
  destruct (p a) eqn:Ha; cbn.
  - now rewrite IH, filter_filter_comm.
  - now rewrite IH, filter_absorbs.
Qed.

Lemma key_mem_app (k : JSON) (l l' : list JSON) :
  key_mem k (l ++ l') = key_mem k l || key_mem k l'.
Proof. unfold key_mem. apply existsb_app. Qed.

Lemma filter_outside_snoc (ks : list JSON) (k : JSON) (l : list JSON) :
  filter (fun id => negb (key_mem id (ks ++ [k]))) l
  = filter (fun x => negb (key_eqb k x))
      (filter (fun id => negb (key_mem id ks)) l).
Proof.
  induction l as [|x l IHl]; [reflexivity|]. cbn.
  rewrite key_mem_app. cbn. rewrite orb_false_r.
  destruct (key_mem x ks); cbn; [exact IHl|].
  destruct (key_eqb k x); cbn; now rewrite IHl.
Qed.

(** The keys after a run of writes: the earlier keys, then the new ids in
    the order in which each was first written. *)
Lemma keys_put_all (items : list JSON) (d : dict) :
  keys (put_all items d) =
  (keys d ++ first_seen (filter (fun id => negb (key_mem id (keys d)))
                                (map item_id items)))%list.
Proof.
  revert d. induction items as [|item items IH]; intros d.
  - cbn. now rewrite app_nil_r.
  - cbn. fold (put_all items (dict_set d (item_id item) item)).
    rewrite IH, keys_set.
    destruct (key_mem (item_id item) (keys d)) eqn:Hmem; cbn; [reflexivity|].
    rewrite <- app_assoc. cbn. do 2 f_equal.
    rewrite <- first_seen_filter by apply differs_respects.
    f_equal. apply filter_outside_snoc.
Qed.

Lemma key_mem_filter (k : JSON) (p : JSON -> bool) (l : list JSON) :
  key_mem k l = false -> key_mem k (filter p l) = false.
Proof.
  unfold key_mem. induction l as [|x l IH]; cbn; [reflexivity|].
  intros [Hx Hl]%orb_false_elim.
  destruct (p x); cbn; rewrite ?Hx; auto.
Qed.

Lemma key_mem_differs (k : JSON) (l : list JSON) :
  key_mem k (filter (fun x => negb (key_eqb k x)) l) = false.
Proof.
  unfold key_mem. induction l as [|x l IH]; cbn; [reflexivity|].
  destruct (key_eqb k x) eqn:Hkx; cbn; [exact IH|].
  now rewrite key_eqb_sym, Hkx.
Qed.

Lemma distinct_filter (p : JSON -> bool) (l : list JSON) :
  distinct l = true -> distinct (filter p l) = true.
Proof.
  induction l as [|x l IH]; cbn; [reflexivity|].
  intros [Hx Hl]%andb_prop. apply negb_true_iff in Hx.
  destruct (p x); cbn; [|auto].
  now rewrite key_mem_filter, IH.
Qed.

(** Each id occurs once in the first-seen order. *)
Lemma distinct_first_seen (ids : list JSON) : distinct (first_seen ids) = true.
Proof.
  induction ids as [|id ids IH]; cbn; [reflexivity|].
  now rewrite key_mem_differs, distinct_filter.
Qed.

Lemma In_first_seen (ids : list JSON) (id : JSON) :
  In id (first_seen ids) -> In id ids.
Proof.
  induction ids as [|x ids IH]; cbn; [auto|].
  intros [->|Hin]; [auto|]. apply filter_In in Hin as [Hin _]. auto.
Qed.

(** Every id seen has its place in the first-seen order. *)
Lemma key_mem_first_seen (ids : list JSON) (id : JSON) :
  key_mem id (first_seen ids) = key_mem id ids.
Proof.
  unfold key_mem. induction ids as [|x ids IH]; cbn; [reflexivity|].
  rewrite <- IH. destruct (key_eqb x id) eqn:Hx; cbn; [reflexivity|].
  clear IH. induction (first_seen ids) as [|y l IHl]; cbn; [reflexivity|].
  destruct (key_eqb x y) eqn:Hxy; cbn.
  - rewrite <- (key_eqb_trans _ _ id Hxy), Hx. exact IHl.
  - now rewrite IHl.
Qed.

(** A dictionary with distinct hashable keys is what its keys and its
    lookups say. *)
Lemma dict_by_keys (d : dict) :
  distinct (keys d) = true ->
  forallb hashable (keys d) = true ->
  map (fun key => (key, match dict_lookup d key with
                        | Some v => v
                        | None => JNull
                        end)) (keys d) = d.
Proof.
  induction d as [|[k v] d IH]; cbn; [reflexivity|].
  intros [Hk Hd]%andb_prop [Hh Hhs]%andb_prop. apply negb_true_iff in Hk.
  rewrite (key_eqb_refl _ Hh). f_equal.
  rewrite <- (IH Hd Hhs) at 2. apply map_ext_in.
  intros key Hin. destruct (key_eqb k key) eqn:Hkey; [|reflexivity].
  exfalso. unfold key_mem, keys in *.
  assert (Hex : existsb (fun k' => key_eqb k' k) (map fst d) = true).
  { apply existsb_exists. exists key. split; [assumption|].
    now rewrite key_eqb_sym. }
  congruence.
Qed.

(** Written one by one into an empty dictionary, the records leave one entry
    per id, in first-seen order, each holding the last record of its id. *)
Lemma put_all_entries (items : list JSON) :
  forallb has_id items = true -> put_all items [] = entries items.
Proof.
  intros Hids.
  assert (Hkeys : keys (put_all items []) = first_seen (map item_id items)).
  { rewrite keys_put_all. cbn. f_equal.
    induction (map item_id items) as [|x l IHl]; cbn; [reflexivity|].
    now rewrite IHl. }
  rewrite <- (dict_by_keys (put_all items [])).
  - rewrite Hkeys. unfold entries. apply map_ext. intros key.
    rewrite lookup_put_all. now destruct (last_record key items).
  - rewrite Hkeys. apply distinct_first_seen.
  - rewrite Hkeys. apply forallb_forall. intros id Hin.
    apply In_first_seen, in_map_iff in Hin as (item & <- & Hin).
    rewrite forallb_forall in Hids. specialize (Hids item Hin).
    unfold has_id, item_id in *. now destruct (getitem item "id").
Qed.

End FirstSeen.

(** ** Listing the cache *)

Section Listing.

Lemma resources_of_dict (k : EntityKind) (d : dict) :
  forallb (has_display k) (map snd d) = true ->
  comprehension (kind_resource k) d = ok (map (resource_of k) d).
Proof.
  induction d as [|[id details] d IH]; cbn; [reflexivity|].
  intros [Hshown Hrest]%andb_prop. rewrite (IH Hrest).
  unfold has_display in Hshown. unfold resource_of, item_shown. cbn.
  destruct k; cbn in *;
    match goal with
    | H : context [getitem details ?f] |- _ =>
        destruct (getitem details f); [discriminate|reflexivity]
    end.
Qed.

Lemma dict_set_values (p : JSON -> bool) (d : dict) (k v : JSON) :
  p v = true ->
  forallb p (map snd d) = true ->
  forallb p (map snd (dict_set d k v)) = true.
Proof.
  intros Hv. induction d as [|[k' v'] d IH]; cbn.
  - now rewrite Hv.
  - intros [Hv' Hd]%andb_prop. destruct (key_eqb k' k); cbn.
    + now rewrite Hv, Hd.
    + now rewrite Hv', IH.
Qed.

Lemma put_all_values (p : JSON -> bool) (items : list JSON) (d : dict) :
  forallb p items = true ->
  forallb p (map snd d) = true ->
  forallb p (map snd (put_all items d)) = true.
Proof.
  revert d. induction items as [|item items IH]; intros d; cbn; [auto|].
  intros [Hitem Hitems]%andb_prop Hd.
  apply (IH _ Hitems). now apply dict_set_values.
Qed.

Lemma put_all_app (items items' : list JSON) (d : dict) :
  put_all (items ++ items') d = put_all items' (put_all items d).
Proof. apply fold_left_app. Qed.

Lemma seen_snoc (k k0 : EntityKind) (history : list (EntityKind * list JSON))
  (items : list JSON) :
  seen k (history ++ [(k0, items)]) =
  (seen k history ++ if kind_eqb k k0 then items else [])%list.
Proof.
  unfold seen. rewrite flat_map_app. cbn. now rewrite app_nil_r.
Qed.

Lemma well_formed_has_display (k : EntityKind) (items : list JSON) :
  forallb (well_formed k) items = true -> forallb (has_display k) items = true.
Proof.
  induction items as [|item items IH]; cbn; [reflexivity|].
  intros [[_ Hshown]%andb_prop Hrest]%andb_prop. now rewrite Hshown, IH.
Qed.

(** Along a history of list operations the dictionary of each kind is the
    run of writes of everything seen for that kind, all of it well formed. *)
Lemma list_run_cache (history : list (EntityKind * list JSON)) (st : State) :
  list_run history st ->
  forall k,
    cache_get (cache st) (kind_key k) = put_all (seen k history) []
    /\ forallb (well_formed k) (seen k history) = true.
Proof.
  induction 1 as [|history st st' client k0 arguments result Hrun IH Hcall]; intros k.
  - destruct k; split; reflexivity.
  - rewrite call_list_tool in Hcall.
    apply list_operation_returns in Hcall as [-> Hserved].
    destruct (IH k) as [Hdict Hwf]. rewrite seen_snoc.
    unfold written, logged. cbn [cache].
    destruct (kind_eqb k k0) eqn:Hk.
    + assert (k = k0) as <- by (destruct k, k0; try discriminate; reflexivity).
      rewrite cache_get_with_same, put_all_app, Hdict, forallb_app, Hwf, Hserved.
      split; reflexivity.
    + rewrite app_nil_r, cache_get_with_other; [now split|].
      destruct k, k0; try discriminate; cbn; congruence.
Qed.

Lemma keys_entries (items : list JSON) :
  keys (entries items) = first_seen (map item_id items).
Proof.
  unfold keys, entries. rewrite map_map. cbn. apply map_id.
Qed.

(** C5. After any sequence of list-operation calls that all returned,
    starting from the idle server, [handle_list_resources] returns the
    listing of the history: for reports, then actors, then sources, one
    resource per id seen, in the order in which each id was first seen, named
    [Threat Report: title], [Threat Actor: main_name], [Source: name] after
    the last record seen under that id. The cache holds exactly these
    entries: no id twice, and an id is a key exactly when it was seen. *)
Theorem listing_after_list_calls (history : list (EntityKind * list JSON))
  (st : State) :
  list_run history st ->
  handle_list_resources (cache st) = ok (listing history)
  /\ (forall k, cache_get (cache st) (kind_key k) = entries (seen k history))
  /\ (forall k, keys (entries (seen k history))
                = first_seen (map item_id (seen k history)))
  /\ (forall k, distinct (keys (entries (seen k history))) = true)
  /\ (forall k id, key_mem id (keys (entries (seen k history)))
                   = key_mem id (map item_id (seen k history))).
Proof.
  intros Hrun. pose proof (list_run_cache Hrun) as Hcache.
  assert (Hentries : forall k,
             cache_get (cache st) (kind_key k) = entries (seen k history)).
  { intros k. destruct (Hcache k) as [-> Hwf].
    apply put_all_entries. now apply well_formed_has_id with (k := k). }
  assert (Hshown : forall k,
             forallb (has_display k) (map snd (entries (seen k history))) = true).
  { intros k. rewrite <- Hentries. destruct (Hcache k) as [-> Hwf].
    apply put_all_values; [|reflexivity]. now apply well_formed_has_display. }
  split; [|split; [exact Hentries|split; [|split]]].
  - unfold handle_list_resources, listing.
    pose proof (Hentries Report) as Hr. pose proof (Hentries Actor) as Ha.
    pose proof (Hentries Source) as Hs. cbn in Hr, Ha, Hs. rewrite Hr, Ha, Hs.
    change report_resource with (kind_resource Report).
    change actor_resource with (kind_resource Actor).
    change source_resource with (kind_resource Source).
    rewrite (resources_of_dict Report _ (Hshown Report)).
    rewrite (resources_of_dict Actor _ (Hshown Actor)).
    rewrite (resources_of_dict Source _ (Hshown Source)).
    reflexivity.
  - intros k. apply keys_entries.
  - intros k. rewrite keys_entries. apply distinct_first_seen.
  - intros k id. rewrite keys_entries. apply key_mem_first_seen.
Qed.

End Listing.

(** The scenario of the specification: after the reports were listed, the
    listing names report [r1] by its title. An actor call and a second
    reports call add the actor after the reports and move nothing. *)
Lemma listing_after_list_calls_witness :
  exists st,
    list_run [(Report, [report_one; report_two]); (Actor, [actor_one]);
              (Source, []); (Report, [report_one; report_two])] st
    /\ handle_list_resources (cache st)
       = ok [ {| uri := "threat://report/r1";
                 name := "Threat Report: Report One";
                 description := "Threat report titled Report One";
                 mimeType := "application/json" |};
              {| uri := "threat://report/r2";
                 name := "Threat Report: Report Two";
                 description := "Threat report titled Report Two";
                 mimeType := "application/json" |};
              {| uri := "threat://actor/a1";
                 name := "Threat Actor: APT One";
                 description := "Threat actor known as APT One";
                 mimeType := "application/json" |} ].
Proof.
  pose proof (@run_call [] _ _ catalog Report None _ run_idle eq_refl) as H1.
  pose proof (@run_call _ _ _ catalog Actor None _ H1 eq_refl) as H2.
  pose proof (@run_call _ _ _ catalog Source None _ H2 eq_refl) as H3.
  pose proof (@run_call _ _ _ catalog Report None _ H3 eq_refl) as H4.
  eexists. split; [exact H4|].
  destruct (listing_after_list_calls H4) as [Hlist _]. exact Hlist.
Defined.

(** ** What the cache holds *)

Section CacheContents.

Lemma only_adds_refl (c : Cache) (k : EntityKind) (items : list JSON) :
  only_adds c c k items.
Proof. split; auto. Qed.

Lemma only_adds_stored (st : State) (k : EntityKind) (id item : JSON) :
  only_adds (cache st) (cache (stored st k id item)) k [item].
Proof.
  unfold stored. cbn [cache]. split.
  - intros key Hkey. now apply cache_get_with_other.
  - intros key v. rewrite cache_get_with_same, dict_lookup_set.
    destruct (key_eqb id key); [|auto].
    intros [= <-]. right. now left.
Qed.

Lemma only_adds_step (c c1 c2 : Cache) (k : EntityKind) (item : JSON)
  (items : list JSON) :
  only_adds c c1 k [item] -> only_adds c1 c2 k items ->
  only_adds c c2 k (item :: items).
Proof.
  intros [Hother1 Hkind1] [Hother2 Hkind2]. split.
  - intros key Hkey. now rewrite Hother2, Hother1.
  - intros key v Hv. destruct (Hkind2 _ _ Hv) as [Hold|Hin]; [|right; now right].
    destruct (Hkind1 _ _ Hold) as [Hold'|[<-|[]]]; [now left|right; now left].
Qed.

Lemma only_adds_more (c c' : Cache) (k : EntityKind) (items items' : list JSON) :
  incl items items' -> only_adds c c' k items -> only_adds c c' k items'.
Proof.
  intros Hincl [Hother Hkind]. split; [exact Hother|].
  intros key v Hv. destruct (Hkind _ _ Hv); auto.
Qed.

(** The loop of a list operation, however it ends, leaves only elements of
    its list behind. *)
Lemma for_each_store_adds (k : EntityKind) (items : list JSON) (st : State) :
  only_adds (cache st) (cache (snd (for_each (store k) items st))) k items.
Proof.
  revert st. induction items as [|item items IH]; intros st.
  - apply only_adds_refl.
  - cbn. unfold bind. rewrite store_step. destruct (has_id item).
    + eapply only_adds_step; [apply only_adds_stored|apply IH].
    + destruct (getitem item "id"); apply only_adds_refl.
Qed.

Lemma list_operation_adds (client : Client) (k : EntityKind) (st : State) :
  only_adds (cache st) (cache (snd (list_operation client k st))) k (served client k).
Proof.
  unfold list_operation, served, bind, client_get, lift, ebind.
  destruct (client (entries_url k)) as [e|response]; [apply only_adds_refl|]. cbn.
  destruct (status_code response =? 200); [|apply only_adds_refl].
  destruct (json response) as [e|body]; [apply only_adds_refl|]. cbn.
  destruct (get body "data" (JArr [])) as [e|data]; [apply only_adds_refl|]. cbn.
  destruct (iter data) as [e|items]; [apply only_adds_refl|]. cbn.
  pose proof (for_each_store_adds k items
                {| cache := cache st;
                   requests := (requests st ++ [entries_url k])%list |}) as Hloop.
  destruct (for_each (store k) items _) as [[e|[]] st1]; [exact Hloop|].
  destruct (comprehension (summary_line k) items); exact Hloop.
Qed.

Lemma detail_operation_adds (client : Client) (k : EntityKind)
  (arguments : option (list (string * string))) (st : State) :
  only_adds (cache st) (cache (snd (detail_operation client k arguments st))) k
    (delivered client k arguments).
Proof.
  unfold detail_operation, delivered, bind, client_get, lift, ebind.
  destruct (arguments_get arguments (id_argument k)) as [e|[i|]];
    [apply only_adds_refl| |apply only_adds_refl].
  cbn. destruct (String.eqb i ""); [apply only_adds_refl|]. cbn.
  destruct (client (entry_url k i)) as [e|response]; [apply only_adds_refl|]. cbn.
  destruct (status_code response =? 200); [|apply only_adds_refl].
  destruct (json response) as [e|body]; [apply only_adds_refl|]. cbn.
  destruct (get body "data" (JObj [])) as [e|details]; [apply only_adds_refl|]. cbn.
  apply (only_adds_stored
           {| cache := cache st; requests := (requests st ++ [entry_url k i])%list |}
           k (JStr i) details).
Qed.

(** Whatever the tool and however the call ends, an entry found in the cache
    afterwards was there before or is a record that reached the server in
    this call. *)
Lemma call_adds (client : Client) (name : string)
  (arguments : option (list (string * string))) (st : State) (k : EntityKind)
  (key v : JSON) :
  dict_lookup
    (cache_get (cache (snd (handle_call_tool client name arguments st))) (kind_key k))
    key = Some v ->
  dict_lookup (cache_get (cache st) (kind_key k)) key = Some v
  \/ In v (arriving client name arguments k).
Proof.
  destruct (in_dec string_dec name six_tools) as [Hin|Hout].
  - assert (Hcases : exists k0,
               (name = list_tool k0
                /\ only_adds (cache st)
                     (cache (snd (handle_call_tool client name arguments st))) k0
                     (served client k0))
               \/ (name = detail_tool k0
                   /\ only_adds (cache st)
                        (cache (snd (handle_call_tool client name arguments st))) k0
                        (delivered client k0 arguments))).
    { unfold six_tools in Hin.
      destruct Hin as [<-|[<-|[<-|[<-|[<-|[<-|[]]]]]]];
        [exists Report; left|exists Report; right|exists Actor; left
        |exists Actor; right|exists Source; left|exists Source; right];
        (split; [reflexivity|]);
        first [rewrite call_list_tool; apply list_operation_adds
              |rewrite call_detail_tool; apply detail_operation_adds]. }
    destruct Hcases as (k0 & [[-> [Hother Hkind]]|[-> [Hother Hkind]]]);
      intros Hv; destruct k, k0;
      first [ now (apply Hkind in Hv)
            | left; rewrite Hother in Hv; [exact Hv|discriminate] ].
  - rewrite (call_other_tool client arguments Hout). cbn. auto.
Qed.

Lemma getitem_failure (v : JSON) (field : string) (e : exn) :
  getitem v field = inl e -> e = TypeError \/ e = KeyError field.
Proof.
  unfold getitem. destruct v; try (intros [= <-]; auto).
  destruct (assoc field fields); [discriminate|]. intros [= <-]. auto.
Qed.

(** The comprehension over the entries of one kind: every entry rendered, or
    the fault of the first entry without its display field. *)
Lemma resources_of_dict_fail (k : EntityKind) (d : dict) :
  forallb (has_display k) (map snd d) = false ->
  exists e, comprehension (kind_resource k) d = raise e
            /\ (e = TypeError \/ e = KeyError (display_field k)).
Proof.
  induction d as [|[id details] d IH]; cbn; [discriminate|].
  destruct (has_display k details) eqn:Hshown; cbn.
  - intros Hrest. destruct (IH Hrest) as (e & -> & He).
    exists e. split; [|exact He].
    unfold has_display in Hshown.
    destruct k; cbn in *;
      match goal with
      | H : context [getitem details ?f] |- _ =>
          destruct (getitem details f); [discriminate|reflexivity]
      end.
  - intros _. unfold has_display in Hshown.
    destruct (getitem details (display_field k)) as [e|] eqn:Hget; [|discriminate].
    exists e. split; [|exact (getitem_failure _ _ Hget)].
    destruct k; cbn in *; now rewrite Hget.
Qed.

End CacheContents.

(** C2, as the code has it. Every entry of the cache is a record as it
    reached the server (for a detail operation the [data] field of the answer,
    or the empty object when the answer has none), so it has its display
    field whenever the upstream record had it. [handle_list_resources]
    returns the listing when every entry has its display field; when some
    entry lacks it, the call fails with the [KeyError] of the missing field,
    or with [TypeError] where the entry is no object: nothing is skipped and
    no placeholder is shown. *)
Theorem listing_needs_display_fields :
  (forall (client : Client) (name : string)
          (arguments : option (list (string * string))) (st : State)
          (k : EntityKind) (key v : JSON),
      dict_lookup
        (cache_get (cache (snd (handle_call_tool client name arguments st)))
           (kind_key k)) key = Some v ->
      dict_lookup (cache_get (cache st) (kind_key k)) key = Some v
      \/ In v (arriving client name arguments k))
  /\ (forall c : Cache,
         all_display c = true -> handle_list_resources c = ok (listing_of c))
  /\ (forall c : Cache,
         all_display c = false ->
         exists e, handle_list_resources c = raise e
                   /\ (e = TypeError \/ exists k, e = KeyError (display_field k))).
Proof.
  split; [exact call_adds|]. split.
  - intros c Hall. unfold all_display in Hall.
    apply andb_prop in Hall as [[Hr Ha]%andb_prop Hs].
    unfold handle_list_resources, listing_of.
    change report_resource with (kind_resource Report).
    change actor_resource with (kind_resource Actor).
    change source_resource with (kind_resource Source).
    now rewrite (resources_of_dict Report _ Hr), (resources_of_dict Actor _ Ha),
      (resources_of_dict Source _ Hs).
  - intros c Hall. unfold all_display in Hall. unfold handle_list_resources.
    change report_resource with (kind_resource Report).
    change actor_resource with (kind_resource Actor).
    change source_resource with (kind_resource Source).
    destruct (forallb (has_display Report) (map snd (threat_reports c))) eqn:Hr.
    + rewrite (resources_of_dict Report _ Hr). cbn [ebind ok].
      destruct (forallb (has_display Actor) (map snd (threat_actors c))) eqn:Ha.
      * rewrite (resources_of_dict Actor _ Ha). cbn [ebind ok].
        cbn in Hall.
        destruct (resources_of_dict_fail Source _ Hall) as (e & -> & He).
        exists e. split; [reflexivity|]. destruct He; eauto.
      * destruct (resources_of_dict_fail Actor _ Ha) as (e & -> & He).
        exists e. split; [reflexivity|]. destruct He; eauto.
    + destruct (resources_of_dict_fail Report _ Hr) as (e & -> & He).
      exists e. split; [reflexivity|]. destruct He; eauto.
Qed.

(** The entry of report [r3] is the record the catalog sent, which has no
    title; the listing then fails instead of showing a placeholder. *)
Lemma listing_fails_without_title :
  dict_lookup (threat_reports (cache untitled_cached)) (JStr "r3") = Some untitled
  /\ has_display Report untitled = false
  /\ handle_list_resources (cache untitled_cached) = raise (KeyError "title")
  /\ ~ (exists resources, handle_list_resources (cache untitled_cached) = ok resources).
Proof.
  repeat split. intros [resources H]. discriminate H.
Qed.

Lemma listing_needs_display_fields_witness :
  (dict_lookup (cache_get (cache idle_state) (kind_key Report)) (JStr "r3") = Some untitled
   \/ In untitled
        (arriving catalog "fetch_threat_report_details" (Some [("report_id", "r3")]) Report))
  /\ handle_list_resources (cache reports_listed) = ok (listing_of (cache reports_listed))
  /\ exists e, handle_list_resources (cache untitled_cached) = raise e
               /\ (e = TypeError \/ exists k, e = KeyError (display_field k)).
Proof.
  destruct listing_needs_display_fields as (Hadds & Hshown & Hfails).
  split; [|split].
  - exact (Hadds catalog "fetch_threat_report_details" (Some [("report_id", "r3")])
             idle_state Report (JStr "r3") untitled eq_refl).
  - exact (Hshown (cache reports_listed) eq_refl).
  - exact (Hfails (cache untitled_cached) eq_refl).
Defined.

(** ** Reading a resource *)

Section Reading.

Variable cache : Cache.

(** X15. A scheme other than [threat] is refused before anything else is
    read: whatever the path and the cache, the read fails with
    [Unsupported URI scheme: ...]. *)
Lemma read_unsupported_scheme (uri : AnyUrl) :
  scheme uri <> "threat" ->
  handle_read_resource uri cache = raise (InvalidAddress (scheme uri)).
Proof.
  intros Hscheme. unfold handle_read_resource.
  apply String.eqb_neq in Hscheme. now rewrite Hscheme.
Qed.

(** With the kind and the id as the first two segments of the path, the
    entry is read from the dictionary of the kind; a miss reads as the empty
    object. *)
Lemma read_by_path (uri : AnyUrl) (p : string) (k : EntityKind) (i : string)
  (rest : list string) :
  scheme uri = "threat" ->
  path uri = Some p ->
  split "/" (strip "/" p) = kind_segment k :: i :: rest ->
  handle_read_resource uri cache
  = ok (dumps (dict_get (cache_get cache (kind_key k)) (JStr i) (JObj []))).
Proof.
  intros Hscheme Hpath Hparts. unfold handle_read_resource.
  rewrite Hscheme, Hpath, Hparts. destruct k; reflexivity.
Qed.

(** X17. A miss is no fault: with kind and id as the first two path
    segments and no entry under the id, the read returns the empty object;
    further path segments are ignored. *)
Lemma read_miss_by_path (uri : AnyUrl) (p : string) (k : EntityKind) (i : string)
  (rest : list string) :
  scheme uri = "threat" ->
  path uri = Some p ->
  split "/" (strip "/" p) = kind_segment k :: i :: rest ->
  dict_lookup (cache_get cache (kind_key k)) (JStr i) = None ->
  handle_read_resource uri cache = ok "{}".
Proof.
  intros Hscheme Hpath Hparts Hmiss.
  rewrite (read_by_path uri k Hscheme Hpath Hparts).
  unfold dict_get. now rewrite Hmiss.
Qed.

(** X16. A first path segment that names no kind is refused with
    [Unknown resource type: ...], provided the path has a second segment. *)
Lemma read_unknown_segment (uri : AnyUrl) (p segment i : string) (rest : list string) :
  scheme uri = "threat" ->
  path uri = Some p ->
  split "/" (strip "/" p) = segment :: i :: rest ->
  (forall k, segment <> kind_segment k) ->
  handle_read_resource uri cache = raise (UnknownResourceType segment).
Proof.
  intros Hscheme Hpath Hparts Hkind. unfold handle_read_resource.
  rewrite Hscheme, Hpath, Hparts. cbn.
  destruct (String.eqb_spec segment "report") as [->|_];
    [now destruct (Hkind Report)|].
  destruct (String.eqb_spec segment "actor") as [->|_];
    [now destruct (Hkind Actor)|].
  destruct (String.eqb_spec segment "source") as [->|_];
    [now destruct (Hkind Source)|].
  reflexivity.
Qed.

(** A path of one segment has no second part to take the id from. *)
Lemma read_single_segment (uri : AnyUrl) (p segment : string) :
  scheme uri = "threat" ->
  path uri = Some p ->
  split "/" (strip "/" p) = [segment] ->
  handle_read_resource uri cache = raise IndexError.
Proof.
  intros Hscheme Hpath Hparts. unfold handle_read_resource.
  now rewrite Hscheme, Hpath, Hparts.
Qed.

End Reading.

(** X18. Read after write, on the path: the record a detail operation
    stored is what a URL whose path is [/kind/id] reads back, as the same
    JSON text the tool returned. *)
Lemma read_back_by_path (client : Client) (k : EntityKind) (response : Response)
  (d : list (string * string)) (i : string) (fields : list (string * JSON))
  (st : State) (uri : AnyUrl) (p : string) (rest : list string) :
  assoc (id_argument k) d = Some i ->
  i <> "" ->
  client (entry_url k i) = ok response ->
  status_code response = 200 ->
  json response = ok (JObj fields) ->
  scheme uri = "threat" ->
  path uri = Some p ->
  split "/" (strip "/" p) = kind_segment k :: i :: rest ->
  handle_read_resource uri
    (cache (snd (handle_call_tool client (detail_tool k) (Some d) st)))
  = ok (dumps (carried fields)).
Proof.
  intros Harg Hi Hget Hstatus Hjson Hscheme Hpath Hparts.
  assert (Hdata : get (JObj fields) "data" (JObj []) = ok (carried fields)).
  { unfold get, carried. now destruct (assoc "data" fields). }
  rewrite call_detail_tool.
  rewrite (detail_operation_success client k d st Harg Hi Hget Hstatus Hjson Hdata).
  cbn [snd stored cache].
  rewrite (read_by_path _ uri k Hscheme Hpath Hparts).
  rewrite cache_get_with_same. unfold dict_get.
  rewrite dict_lookup_set. cbn. now rewrite String.eqb_refl.
Qed.

(** ** Resource addresses *)

Section Addresses.

Lemma plain_is_no_slash (a : ascii) : is_plain a = true -> Ascii.eqb a "/" = false.
Proof.
  destruct a as [[] [] [] [] [] [] [] []]; cbn; intros H;
    try reflexivity; discriminate H.
Qed.

Lemma plain_has_no_slash (s : string) :
  all_chars is_plain s = true -> contains_char "/" s = false.
Proof.
  induction s as [|a s IH]; cbn; [reflexivity|].
  intros [Ha Hs]%andb_prop. now rewrite (plain_is_no_slash _ Ha), IH.
Qed.

Lemma lstrip_absent (c : ascii) (s : string) :
  contains_char c s = false -> lstrip c s = s.
Proof.
  destruct s as [|a s]; cbn; [reflexivity|].
  intros [Ha _]%orb_false_elim. now rewrite Ha.
Qed.

Lemma rstrip_absent (c : ascii) (s : string) :
  contains_char c s = false -> rstrip c s = s.
Proof.
  induction s as [|a s IH]; cbn; [reflexivity|].
  intros [Ha Hs]%orb_false_elim. rewrite (IH Hs), Ha.
  now destruct s.
Qed.

Lemma split_absent (c : ascii) (s : string) :
  contains_char c s = false -> split c s = [s].
Proof.
  induction s as [|a s IH]; cbn; [reflexivity|].
  intros [Ha Hs]%orb_false_elim. now rewrite Ha, (IH Hs).
Qed.

Variable k : EntityKind.
Variable i : string.
Hypothesis plain_id : plain_segment i = true.

Lemma plain_id_no_slash : contains_char "/" i = false.
Proof.
  unfold plain_segment in plain_id.
  apply andb_prop in plain_id as [[Hplain _]%andb_prop _].
  now apply plain_has_no_slash.
Qed.

(** The address under which [handle_list_resources] lists entry [i] of kind
    [k] parses with the kind as its host and the id alone as its path. *)
Lemma listed_address_parses :
  AnyUrl_parse ("threat://" ++ kind_segment k ++ "/" ++ i)
  = Some {| scheme := "threat"; host := Some (kind_segment k); path := Some ("/" ++ i) |}.
Proof.
  pose proof plain_id_no_slash as Hslash.
  unfold AnyUrl_parse. destruct k; cbn; rewrite (split_absent _ _ Hslash); cbn;
    now rewrite plain_id.
Qed.

(** X19. No listed address can be read: for every kind and every plain id,
    reading [threat://kind/id], the address [handle_list_resources] gives
    the entry, finds one path segment and fails with [IndexError], whatever
    the cache holds. *)
Lemma read_listed_address (c : Cache) :
  read_resource ("threat://" ++ kind_segment k ++ "/" ++ i) c = Some (raise IndexError).
Proof.
  pose proof plain_id_no_slash as Hslash.
  unfold read_resource. rewrite listed_address_parses. f_equal.
  apply read_single_segment with (p := "/" ++ i) (segment := i); try reflexivity.
  cbn. unfold strip. cbn. rewrite (lstrip_absent _ _ Hslash), (rstrip_absent _ _ Hslash).
  now apply split_absent.
Qed.

End Addresses.

(** C1, on the code. The detail of report [r1] is fetched and stored, and the
    tool returns its JSON text; reading [threat://report/r1] afterwards does
    not return that text: the URL has host [report] and path [/r1], and the
    handler fails with [IndexError] on the missing second path segment. *)
Theorem read_after_detail_fetch_raises :
  handle_call_tool catalog "fetch_threat_report_details" (Some [("report_id", "r1")])
    idle_state
  = (ok [text_content (dumps report_one)], detail_cached)
  /\ dict_lookup (threat_reports (cache detail_cached)) (JStr "r1") = Some report_one
  /\ read_resource "threat://report/r1" (cache detail_cached) = Some (raise IndexError).
Proof. repeat split. Qed.

(** C7, on the code. A scheme other than [threat] is refused as an invalid
    address. With scheme [threat], the address [threat://widget/1] fails with
    [IndexError], not with the unknown-type condition, and
    [threat://widget/report/r1] is answered with a document. *)
Theorem read_widget_address (c : Cache) :
  read_resource "foo://report/1" c = Some (raise (InvalidAddress "foo"))
  /\ read_resource "threat://widget/1" c = Some (raise IndexError)
  /\ read_resource "threat://widget/report/r1" cache_init = Some (ok "{}").
Proof. repeat split. Qed.

(** C8, on the code. Reading the address of an entity of any kind that was
    never fetched fails with [IndexError] instead of returning the empty
    object. *)
Theorem read_uncached_address_raises (k : EntityKind) :
  dict_lookup (cache_get cache_init (kind_key k)) (JStr "r1") = None
  /\ read_resource ("threat://" ++ kind_segment k ++ "/r1") cache_init
     = Some (raise IndexError).
Proof. destruct k; repeat split. Qed.

(** * Further properties of the handlers *)

(** ** The dispatcher as a whole *)

Lemma tool_cases (name : string) :
  (exists k, name = list_tool k) \/ (exists k, name = detail_tool k)
  \/ ~ In name six_tools.
Proof.
  destruct (in_dec string_dec name six_tools) as [Hin|Hout]; [|auto].
  unfold six_tools in Hin.
  destruct Hin as [<-|[<-|[<-|[<-|[<-|[<-|[]]]]]]]; eauto.
Qed.




Lemma store_requests (k : EntityKind) (item : JSON) (st : State) :
  requests (snd (store k item st)) = requests st.
Proof.
  rewrite store_step. destruct (has_id item); [reflexivity|].
  now destruct (getitem item "id").
Qed.

Lemma for_each_store_requests (k : EntityKind) (items : list JSON) (st : State) :
  requests (snd (for_each (store k) items st)) = requests st.
Proof.
  revert st. induction items as [|item items IH]; intros st; [reflexivity|].
  cbn. unfold bind. pose proof (store_requests k item st) as Hstep.
  destruct (store k item st) as [[e|[]] st1]; cbn in *; [exact Hstep|].
  now rewrite IH.
Qed.

(** A list operation always asks the catalog once, for its list. *)
Lemma list_operation_requests (client : Client) (k : EntityKind) (st : State) :
  requests (snd (list_operation client k st))
  = (requests st ++ [entries_url k])%list.
Proof.
  unfold list_operation, bind, client_get, lift.
  destruct (client (entries_url k)) as [e|response]; [reflexivity|]. cbn.
  destruct (status_code response =? 200); [|reflexivity].
  destruct (json response) as [e|body]; [reflexivity|]. cbn.
  destruct (get body "data" (JArr [])) as [e|data]; [reflexivity|]. cbn.
  destruct (iter data) as [e|items]; [reflexivity|]. cbn.
  pose proof (for_each_store_requests k items
                {| cache := cache st;
                   requests := (requests st ++ [entries_url k])%list |}) as Hloop.
  destruct (for_each (store k) items _) as [[e|[]] st1]; [exact Hloop|].
  destruct (comprehension (summary_line k) items); exact Hloop.
Qed.

(** A detail operation asks once, for the entry named by its identifier, or
    not at all when the identifier is missing. *)
Lemma detail_operation_requests (client : Client) (k : EntityKind)
  (arguments : option (list (string * string))) (st : State) :
  requests (snd (detail_operation client k arguments st)) =
  match arguments_get arguments (id_argument k) with
  | inr (Some i) =>
      if String.eqb i "" then requests st
      else (requests st ++ [entry_url k i])%list
  | _ => requests st
  end.
Proof.
  unfold detail_operation, bind, client_get, lift.
  destruct (arguments_get arguments (id_argument k)) as [e|[i|]];
    [reflexivity| |reflexivity].
  cbn. destruct (String.eqb i ""); [reflexivity|]. cbn.
  destruct (client (entry_url k i)) as [e|response]; [reflexivity|]. cbn.
  destruct (status_code response =? 200); [|reflexivity].
  destruct (json response) as [e|body]; [reflexivity|]. cbn.
  destruct (get body "data" (JObj [])) as [e|details]; reflexivity.
Qed.


(** X4. When the request itself fails, the fault of [client.get] leaves
    every tool as it is: the cache is untouched and the request is on the
    log. *)
Theorem transport_fault_propagates (client : Client) (k : EntityKind) (e : exn)
  (st : State) :
  (forall arguments,
      client (entries_url k) = raise e ->
      handle_call_tool client (list_tool k) arguments st
      = (raise e, logged st (entries_url k)))
  /\ (forall d i,
         assoc (id_argument k) d = Some i ->
         i <> "" ->
         client (entry_url k i) = raise e ->
         handle_call_tool client (detail_tool k) (Some d) st
         = (raise e, logged st (entry_url k i))).
Proof.
  split.
  - intros arguments Hget. rewrite call_list_tool.
    unfold list_operation, bind, client_get. now rewrite Hget.
  - intros d i Harg Hi Hget. rewrite call_detail_tool.
    unfold detail_operation, bind, lift, arguments_get, client_get. cbn.
    rewrite Harg. cbn. apply String.eqb_neq in Hi. rewrite Hi. cbn.
    now rewrite Hget.
Qed.

Lemma transport_fault_propagates_witness :
  handle_call_tool down_client "fetch_threat_actors" None idle_state
  = (raise (HTTPError "connection refused"),
     {| cache := cache_init; requests := [entries_url Actor] |})
  /\ handle_call_tool down_client "fetch_source_details" (Some [("source_id", "s1")])
       idle_state
     = (raise (HTTPError "connection refused"),
        {| cache := cache_init; requests := [entry_url Source "s1"] |}).
Proof.
  split.
  - destruct (@transport_fault_propagates down_client Actor
                (HTTPError "connection refused") idle_state) as [Hlist _].
    exact (Hlist None eq_refl).
  - destruct (@transport_fault_propagates down_client Source
                (HTTPError "connection refused") idle_state) as [_ Hdetail].
    exact (Hdetail [("source_id", "s1")] "s1" eq_refl ltac:(discriminate) eq_refl).
Defined.

(** X5. A 200 answer whose body does not decode, or decodes to something
    other than an object, is a fault of the call ([JSONDecodeError] or
    whatever [response.json()] raised; [AttributeError] for a body without
    [get]); the cache is untouched. *)
Theorem undecodable_body_is_a_fault (client : Client) (k : EntityKind)
  (response : Response) (st : State) :
  status_code response = 200 ->
  (forall e, json response = raise e \/
             (exists body, json response = ok body
                           /\ (forall fields, body <> JObj fields)
                           /\ e = AttributeError) ->
     (forall arguments,
         client (entries_url k) = ok response ->
         handle_call_tool client (list_tool k) arguments st
         = (raise e, logged st (entries_url k)))
     /\ (forall d i,
            assoc (id_argument k) d = Some i ->
            i <> "" ->
            client (entry_url k i) = ok response ->
            handle_call_tool client (detail_tool k) (Some d) st
            = (raise e, logged st (entry_url k i)))).
Proof.
  intros Hstatus e Hbody. split.
  - intros arguments Hget. rewrite call_list_tool.
    unfold list_operation, bind, client_get, lift. rewrite Hget. cbn.
    rewrite Hstatus. cbn.
    destruct Hbody as [->|(body & -> & Hshape & ->)]; [reflexivity|].
    destruct body; try reflexivity. now destruct (Hshape fields).
  - intros d i Harg Hi Hget. rewrite call_detail_tool.
    unfold detail_operation, bind, lift, arguments_get, client_get. cbn.
    rewrite Harg. cbn. apply String.eqb_neq in Hi. rewrite Hi. cbn.
    rewrite Hget. cbn. rewrite Hstatus. cbn.
    destruct Hbody as [->|(body & -> & Hshape & ->)]; [reflexivity|].
    destruct body; try reflexivity. now destruct (Hshape fields).
Qed.

Lemma undecodable_body_is_a_fault_witness :
  handle_call_tool garbled_client "fetch_latest_threat_reports" None idle_state
  = (raise JSONDecodeError,
     {| cache := cache_init; requests := [entries_url Report] |}).
Proof.
  destruct (@undecodable_body_is_a_fault garbled_client Report
              {| status_code := 200; response_text := "<html>";
                 json := raise JSONDecodeError |}
              idle_state eq_refl JSONDecodeError (or_introl eq_refl)) as [Hlist _].
  exact (Hlist None eq_refl).
Defined.

(** ** List operations that fail half way *)

Section PartialLists.

Variable k : EntityKind.

(** The loop stores the elements before the first one it cannot store and
    stops there with that element's fault. *)
Lemma for_each_store_stops (good : list JSON) (bad : JSON) (rest : list JSON)
  (st : State) :
  forallb has_id good = true ->
  has_id bad = false ->
  for_each (store k) (good ++ bad :: rest) st
  = (raise (store_fault bad), written st k good).
Proof.
  revert st. induction good as [|item good IH]; intros st Hgood Hbad.
  - cbn. unfold bind. rewrite store_step, Hbad, written_nil.
    unfold store_fault. now destruct (getitem bad "id").
  - cbn in Hgood. apply andb_prop in Hgood as [Hitem Hgood].
    cbn. unfold bind. rewrite store_step, Hitem.
    rewrite (IH _ Hgood Hbad). now rewrite written_cons.
Qed.

(** With ids everywhere, the summary fails at the first element without its
    display field. *)
Lemma summary_lines_fail (items : list JSON) :
  forallb has_id items = true ->
  forallb (has_display k) items = false ->
  comprehension (summary_line k) items = raise (KeyError (display_field k)).
Proof.
  induction items as [|item items IH]; cbn; [discriminate|].
  intros [Hid Hids]%andb_prop Hshown.
  rewrite summary_line_step. unfold has_id in Hid. unfold has_display in Hshown.
  unfold getitem in *. destruct item; try discriminate.
  destruct (assoc "id" fields); [|discriminate].
  destruct (assoc (display_field k) fields); [|reflexivity].
  cbn in Hshown. now rewrite (IH Hids Hshown).
Qed.

End PartialLists.

(** X6. A list operation is not atomic. When the [data] array has an element
    without a usable [id] (no object, no [id] field, or an unhashable id),
    the elements before it are in the cache, the call fails with the fault
    of that element ([KeyError] for a missing [id], [TypeError] otherwise),
    and the elements after it are never looked at. *)
Theorem list_stops_at_record_without_id (client : Client) (k : EntityKind)
  (response : Response) (fields : list (string * JSON))
  (good : list JSON) (bad : JSON) (rest : list JSON)
  (arguments : option (list (string * string))) (st : State) :
  client (entries_url k) = ok response ->
  status_code response = 200 ->
  json response = ok (JObj fields) ->
  assoc "data" fields = Some (JArr (good ++ bad :: rest)) ->
  forallb has_id good = true ->
  has_id bad = false ->
  handle_call_tool client (list_tool k) arguments st
  = (raise (store_fault bad), written (logged st (entries_url k)) k good)
  /\ (store_fault bad = TypeError \/ store_fault bad = KeyError "id").
Proof.
  intros Hget Hstatus Hjson Hdata Hgood Hbad. split.
  - rewrite call_list_tool.
    unfold list_operation, bind, client_get, lift. rewrite Hget. cbn.
    rewrite Hstatus. cbn. rewrite Hjson. cbn. rewrite Hdata. cbn.
    now rewrite (for_each_store_stops k good bad rest _ Hgood Hbad).
  - unfold store_fault, has_id in *.
    destruct (getitem bad "id") as [e|id] eqn:Hid; [|now left].
    exact (getitem_failure _ _ Hid).
Qed.

Lemma list_stops_at_record_without_id_witness :
  handle_call_tool nameless_catalog "fetch_latest_threat_reports" None idle_state
  = (raise (KeyError "id"),
     {| cache := {| threat_reports := [(JStr "r1", report_one)];
                    threat_actors := [];
                    sources := [] |};
        requests := [entries_url Report] |}).
Proof.
  destruct (@list_stops_at_record_without_id nameless_catalog Report
              {| status_code := 200;
                 response_text :=
                   dumps (JObj [("data", JArr [report_one; nameless; report_two])]);
                 json := ok (JObj [("data", JArr [report_one; nameless; report_two])]) |}
              [("data", JArr [report_one; nameless; report_two])]
              [report_one] nameless [report_two] None idle_state
              eq_refl eq_refl eq_refl eq_refl eq_refl eq_refl) as [Hcall _].
  exact Hcall.
Defined.

(** X7. When every element has its [id] but some element lacks the display
    field, the whole array is written to the cache first and the call then
    fails with [KeyError] on the display field: the caller sees a fault, the
    cache has changed. *)
Theorem list_writes_then_fails (client : Client) (k : EntityKind)
  (response : Response) (fields : list (string * JSON)) (items : list JSON)
  (arguments : option (list (string * string))) (st : State) :
  client (entries_url k) = ok response ->
  status_code response = 200 ->
  json response = ok (JObj fields) ->
  assoc "data" fields = Some (JArr items) ->
  forallb has_id items = true ->
  forallb (has_display k) items = false ->
  handle_call_tool client (list_tool k) arguments st
  = (raise (KeyError (display_field k)), written (logged st (entries_url k)) k items).
Proof.
  intros Hget Hstatus Hjson Hdata Hids Hshown.
  rewrite call_list_tool.
  unfold list_operation, bind, client_get, lift. rewrite Hget. cbn.
  rewrite Hstatus. cbn. rewrite Hjson. cbn. rewrite Hdata. cbn.
  rewrite (for_each_store k _ _ Hids).
  now rewrite (summary_lines_fail k _ Hids Hshown).
Qed.

Lemma list_writes_then_fails_witness :
  handle_call_tool untitled_catalog "fetch_latest_threat_reports" None idle_state
  = (raise (KeyError "title"),
     {| cache := {| threat_reports := [(JStr "r1", report_one); (JStr "r3", untitled)];
                    threat_actors := [];
                    sources := [] |};
        requests := [entries_url Report] |}).
Proof.
  exact (@list_writes_then_fails untitled_catalog Report
           {| status_code := 200;
              response_text := dumps (JObj [("data", JArr [report_one; untitled])]);
              json := ok (JObj [("data", JArr [report_one; untitled])]) |}
           [("data", JArr [report_one; untitled])] [report_one; untitled]
           None idle_state eq_refl eq_refl eq_refl eq_refl eq_refl eq_refl).
Defined.

(** X8. Only an array can fill the cache. When the [data] field of a 200
    answer is anything else, the call writes nothing: it fails with
    [TypeError], except that an empty string and an empty object pass for an
    empty list and give the empty text. *)
Theorem only_arrays_fill_the_cache (client : Client) (k : EntityKind)
  (response : Response) (fields : list (string * JSON)) (data : JSON)
  (arguments : option (list (string * string))) (st : State) :
  client (entries_url k) = ok response ->
  status_code response = 200 ->
  json response = ok (JObj fields) ->
  assoc "data" fields = Some data ->
  (forall items, data <> JArr items) ->
  handle_call_tool client (list_tool k) arguments st
  = (if match data with
        | JStr EmptyString | JObj [] => true
        | _ => false
        end
     then ok [text_content ""] else raise TypeError,
     logged st (entries_url k)).
Proof.
  intros Hget Hstatus Hjson Hdata Hshape.
  rewrite call_list_tool.
  unfold list_operation, bind, client_get, lift. rewrite Hget. cbn.
  rewrite Hstatus. cbn. rewrite Hjson. cbn. rewrite Hdata. cbn.
  destruct data as [| | |s|items|fs]; try reflexivity.
  - destruct s; reflexivity.
  - now destruct (Hshape items).
  - destruct fs as [|[f v] fs]; reflexivity.
Qed.

Lemma only_arrays_fill_the_cache_witness :
  handle_call_tool object_catalog "fetch_latest_threat_reports" None idle_state
  = (raise TypeError, {| cache := cache_init; requests := [entries_url Report] |}).
Proof.
  exact (@only_arrays_fill_the_cache object_catalog Report
           {| status_code := 200;
              response_text := dumps (JObj [("data", report_one)]);
              json := ok (JObj [("data", report_one)]) |}
           [("data", report_one)] report_one None idle_state
           eq_refl eq_refl eq_refl eq_refl ltac:(discriminate)).
Defined.

(** ** What no call does to the cache *)

Section Monotone.

Lemma keeps_keys_refl (c : Cache) : keeps_keys c c.
Proof. intros key. exists []. now rewrite app_nil_r. Qed.

Lemma keeps_keys_trans (c c1 c2 : Cache) :
  keeps_keys c c1 -> keeps_keys c1 c2 -> keeps_keys c c2.
Proof.
  intros H1 H2 key. destruct (H1 key) as [t1 E1], (H2 key) as [t2 E2].
  exists (t1 ++ t2)%list. now rewrite E2, E1, app_assoc.
Qed.

Lemma keeps_keys_stored (st : State) (k : EntityKind) (id item : JSON) :
  keeps_keys (cache st) (cache (stored st k id item)).
Proof.
  intros key. unfold stored. cbn [cache].
  destruct k, key; cbn;
    try (exists []; now rewrite app_nil_r);
    (rewrite keys_set; destruct (key_mem id _); [exists []|exists [id]];
     now rewrite ?app_nil_r).
Qed.

Lemma for_each_store_keeps (k : EntityKind) (items : list JSON) (st : State) :
  keeps_keys (cache st) (cache (snd (for_each (store k) items st))).
Proof.
  revert st. induction items as [|item items IH]; intros st.
  - apply keeps_keys_refl.
  - cbn. unfold bind. rewrite store_step. destruct (has_id item).
    + eapply keeps_keys_trans; [apply keeps_keys_stored|apply IH].
    + destruct (getitem item "id"); apply keeps_keys_refl.
Qed.

Lemma list_operation_keeps (client : Client) (k : EntityKind) (st : State) :
  keeps_keys (cache st) (cache (snd (list_operation client k st))).
Proof.
  unfold list_operation, bind, client_get, lift.
  destruct (client (entries_url k)) as [e|response]; [apply keeps_keys_refl|]. cbn.
  destruct (status_code response =? 200); [|apply keeps_keys_refl].
  destruct (json response) as [e|body]; [apply keeps_keys_refl|]. cbn.
  destruct (get body "data" (JArr [])) as [e|data]; [apply keeps_keys_refl|]. cbn.
  destruct (iter data) as [e|items]; [apply keeps_keys_refl|]. cbn.
  pose proof (for_each_store_keeps k items
                {| cache := cache st;
                   requests := (requests st ++ [entries_url k])%list |}) as Hloop.
  destruct (for_each (store k) items _) as [[e|[]] st1]; [exact Hloop|].
  destruct (comprehension (summary_line k) items); exact Hloop.
Qed.

Lemma detail_operation_keeps (client : Client) (k : EntityKind)
  (arguments : option (list (string * string))) (st : State) :
  keeps_keys (cache st) (cache (snd (detail_operation client k arguments st))).
Proof.
  unfold detail_operation, bind, client_get, lift.
  destruct (arguments_get arguments (id_argument k)) as [e|[i|]];
    [apply keeps_keys_refl| |apply keeps_keys_refl].
  cbn. destruct (String.eqb i ""); [apply keeps_keys_refl|]. cbn.
  destruct (client (entry_url k i)) as [e|response]; [apply keeps_keys_refl|]. cbn.
  destruct (status_code response =? 200); [|apply keeps_keys_refl].
  destruct (json response) as [e|body]; [apply keeps_keys_refl|]. cbn.
  destruct (get body "data" (JObj [])) as [e|details]; [apply keeps_keys_refl|]. cbn.
  apply (keeps_keys_stored
           {| cache := cache st; requests := (requests st ++ [entry_url k i])%list |}
           k (JStr i) details).
Qed.

Lemma key_mem_app_l (k : JSON) (l l' : list JSON) :
  key_mem k l = true -> key_mem k (l ++ l') = true.
Proof. intros H. now rewrite key_mem_app, H. Qed.

End Monotone.

(** X9. No call ever removes or moves a cache entry. Whatever the tool, the
    arguments, the catalog and the outcome, each of the three dictionaries
    afterwards starts with the keys it had, in the same order, so every id
    that was cached still is. *)
Theorem cache_never_forgets (client : Client) (name : string)
  (arguments : option (list (string * string))) (st : State) :
  let st' := snd (handle_call_tool client name arguments st) in
  keeps_keys (cache st) (cache st')
  /\ (forall key id,
         key_mem id (keys (cache_get (cache st) key)) = true ->
         key_mem id (keys (cache_get (cache st') key)) = true).
Proof.
  intros st'.
  assert (Hkeeps : keeps_keys (cache st) (cache st')).
  { unfold st'. destruct (tool_cases name) as [[k ->]|[[k ->]|Hout]].
    - rewrite call_list_tool. apply list_operation_keeps.
    - rewrite call_detail_tool. apply detail_operation_keeps.
    - rewrite (call_other_tool client arguments Hout). apply keeps_keys_refl. }
  split; [exact Hkeeps|].
  intros key id Hmem. destruct (Hkeeps key) as [tail ->].
  now apply key_mem_app_l.
Qed.

(** X10. A tool writes only to the dictionary of its own kind: after a list
    or a detail operation for one kind, however it ends, the two other
    dictionaries are what they were. *)
Theorem other_kinds_untouched (client : Client) (k : EntityKind)
  (arguments : option (list (string * string))) (st : State) (key : CacheKey) :
  key <> kind_key k ->
  cache_get (cache (snd (handle_call_tool client (list_tool k) arguments st))) key
  = cache_get (cache st) key
  /\ cache_get (cache (snd (handle_call_tool client (detail_tool k) arguments st))) key
     = cache_get (cache st) key.
Proof.
  intros Hkey. split.
  - rewrite call_list_tool.
    destruct (list_operation_adds client k st) as [Hother _]. now apply Hother.
  - rewrite call_detail_tool.
    destruct (detail_operation_adds client k arguments st) as [Hother _].
    now apply Hother.
Qed.

Lemma other_kinds_untouched_witness :
  cache_get
    (cache (snd (handle_call_tool catalog "fetch_threat_actors" None reports_listed)))
    ThreatReports
  = [(JStr "r1", report_one); (JStr "r2", report_two)].
Proof.
  destruct (@other_kinds_untouched catalog Actor None reports_listed ThreatReports
              ltac:(discriminate)) as [Hlist _].
  exact Hlist.
Defined.

Lemma cache_never_forgets_witness :
  key_mem (JStr "r1")
    (keys (cache_get
             (cache (snd (handle_call_tool untitled_catalog "fetch_latest_threat_reports"
                            None reports_listed)))
             ThreatReports)) = true.
Proof.
  pose proof (cache_never_forgets untitled_catalog "fetch_latest_threat_reports"
                None reports_listed) as H.
  cbv zeta in H. destruct H as [_ Hmem].
  exact (Hmem ThreatReports (JStr "r1") eq_refl).
Defined.

(** ** Listing any cache *)

Section ListingAnyCache.

Lemma list_resources_shown (c : Cache) :
  all_display c = true -> handle_list_resources c = ok (listing_of c).
Proof.
  intros Hall. unfold all_display in Hall.
  apply andb_prop in Hall as [[Hr Ha]%andb_prop Hs].
  unfold handle_list_resources, listing_of.
  change report_resource with (kind_resource Report).
  change actor_resource with (kind_resource Actor).
  change source_resource with (kind_resource Source).
  now rewrite (resources_of_dict Report _ Hr), (resources_of_dict Actor _ Ha),
    (resources_of_dict Source _ Hs).
Qed.

Lemma list_resources_hidden (c : Cache) :
  all_display c = false ->
  exists e, handle_list_resources c = raise e
            /\ (e = TypeError \/ exists k, e = KeyError (display_field k)).
Proof.
  intros Hall. unfold all_display in Hall. unfold handle_list_resources.
  change report_resource with (kind_resource Report).
  change actor_resource with (kind_resource Actor).
  change source_resource with (kind_resource Source).
  destruct (forallb (has_display Report) (map snd (threat_reports c))) eqn:Hr.
  - rewrite (resources_of_dict Report _ Hr). cbn [ebind ok].
    destruct (forallb (has_display Actor) (map snd (threat_actors c))) eqn:Ha.
    + rewrite (resources_of_dict Actor _ Ha). cbn [ebind ok]. cbn in Hall.
      destruct (resources_of_dict_fail Source _ Hall) as (e & -> & He).
      exists e. split; [reflexivity|]. destruct He; eauto.
    + destruct (resources_of_dict_fail Actor _ Ha) as (e & -> & He).
      exists e. split; [reflexivity|]. destruct He; eauto.
  - destruct (resources_of_dict_fail Report _ Hr) as (e & -> & He).
    exists e. split; [reflexivity|]. destruct He; eauto.
Qed.

Lemma dict_set_holds (d : dict) (k v : JSON) : In v (map snd (dict_set d k v)).
Proof.
  induction d as [|[k' v'] d IH]; cbn; [auto|].
  destruct (key_eqb k' k); cbn; auto.
Qed.




Lemma all_display_broken (st : State) (k : EntityKind) (id v : JSON) :
  has_display k v = false ->
  all_display (cache (stored st k id v)) = false.
Proof.
  intros Hv.
  assert (Hdict : forallb (has_display k)
                    (map snd (dict_set (cache_get (cache st) (kind_key k)) id v)) = false).
  { apply not_true_is_false. intros Hall. rewrite forallb_forall in Hall.
    specialize (Hall v (dict_set_holds _ id v)). congruence. }
  unfold all_display, stored. cbn [cache].
  destruct k; cbn in *; rewrite Hdict; now rewrite ?andb_false_r.
Qed.


End ListingAnyCache.

(** X11. Whenever [handle_list_resources] returns, for any cache at all, it
    returns one resource per entry: those of the reports, then of the
    actors, then of the sources, each group in dictionary order, each with
    MIME type [application/json]. It never returns a partial listing. *)
Theorem listing_returns_every_entry (c : Cache) (resources : list Resource) :
  handle_list_resources c = ok resources ->
  resources = listing_of c
  /\ List.length resources
     = (List.length (threat_reports c) + List.length (threat_actors c)
        + List.length (sources c))%nat
  /\ Forall (fun r => mimeType r = "application/json") resources.
Proof.
  intros Hlist. destruct (all_display c) eqn:Hall.
  - rewrite (list_resources_shown c Hall) in Hlist. injection Hlist as <-.
    split; [reflexivity|]. split.
    + unfold listing_of. rewrite !length_app, !length_map. lia.
    + unfold listing_of. rewrite !Forall_app. repeat split;
        apply Forall_forall; intros r (entry & <- & _)%in_map_iff; reflexivity.
  - destruct (list_resources_hidden c Hall) as (e & He & _).
    rewrite He in Hlist. discriminate.
Qed.

Lemma listing_returns_every_entry_witness :
  List.length (listing_of (cache reports_listed)) = 2%nat.
Proof.
  destruct (@listing_returns_every_entry (cache reports_listed)
              (listing_of (cache reports_listed)) eq_refl) as (_ & Hlen & _).
  exact Hlen.
Defined.



(** X13. A 200 detail answer without a display field breaks the listing. In
    particular an answer with no [data] field stores the empty object, and
    from then on [handle_list_resources] fails ([KeyError] on a display
    field, or [TypeError] for an entry that is no object) for the whole
    cache, not only for that entry. *)
Theorem bare_detail_breaks_listing (client : Client) (k : EntityKind)
  (response : Response) (d : list (string * string)) (i : string)
  (fields : list (string * JSON)) (st : State) :
  assoc (id_argument k) d = Some i ->
  i <> "" ->
  client (entry_url k i) = ok response ->
  status_code response = 200 ->
  json response = ok (JObj fields) ->
  has_display k (carried fields) = false ->
  let st' := snd (handle_call_tool client (detail_tool k) (Some d) st) in
  (assoc "data" fields = None ->
   dict_lookup (cache_get (cache st') (kind_key k)) (JStr i) = Some (JObj []))
  /\ exists e, handle_list_resources (cache st') = raise e
               /\ (e = TypeError \/ exists k', e = KeyError (display_field k')).
Proof.
  intros Harg Hi Hget Hstatus Hjson Hbare st'.
  assert (Hdata : get (JObj fields) "data" (JObj []) = ok (carried fields)).
  { unfold get, carried. now destruct (assoc "data" fields). }
  unfold st'. rewrite call_detail_tool.
  rewrite (detail_operation_success client k d st Harg Hi Hget Hstatus Hjson Hdata).
  cbn [snd]. split.
  - intros Hnone. unfold stored. cbn [cache].
    rewrite cache_get_with_same, dict_lookup_set. cbn. rewrite String.eqb_refl.
    unfold carried. now rewrite Hnone.
  - apply list_resources_hidden. now apply all_display_broken.
Qed.

Lemma bare_detail_breaks_listing_witness :
  exists e,
    handle_list_resources
      (cache (snd (handle_call_tool catalog "fetch_threat_report_details"
                     (Some [("report_id", "r2")]) reports_listed)))
    = raise e
    /\ (e = TypeError \/ exists k', e = KeyError (display_field k')).
Proof.
  pose proof (@bare_detail_breaks_listing catalog Report
                {| status_code := 200; response_text := "{}"; json := ok (JObj []) |}
                [("report_id", "r2")] "r2" [] reports_listed
                eq_refl ltac:(discriminate) eq_refl eq_refl eq_refl eq_refl) as H.
  cbv zeta in H. destruct H as [_ Hfails]. exact Hfails.
Defined.

(** ** The advertised tools and the dispatcher *)

Section Advertised.

Lemma snoc_differs {A} (l : list A) (x : A) : (l ++ [x])%list <> l.
Proof.
  intros H. apply (f_equal (@List.length A)) in H.
  rewrite length_app in H. cbn in H. lia.
Qed.

Lemma advertised_names : map Tools.name Tools.list_tools = six_tools.
Proof. reflexivity. Qed.

Lemma list_tool_is_known (client : Client) (k : EntityKind)
  (arguments : option (list (string * string))) (st : State) (e : exn) :
  handle_call_tool client (list_tool k) arguments st <> (raise e, st).
Proof.
  intros H. apply (f_equal (fun p => requests (snd p))) in H. cbn in H.
  rewrite call_list_tool, list_operation_requests in H.
  exact (@snoc_differs _ _ _ H).
Qed.

Lemma detail_tool_is_known (client : Client) (k : EntityKind)
  (arguments : option (list (string * string))) (st : State) :
  handle_call_tool client (detail_tool k) arguments st
  <> (raise (UnknownTool (detail_tool k)), st).
Proof.
  intros H. pose proof (f_equal (fun p => requests (snd p)) H) as Hreq.
  cbn in Hreq. rewrite call_detail_tool in H, Hreq.
  rewrite detail_operation_requests in Hreq.
  unfold detail_operation, bind, lift, arguments_get in *.
  destruct arguments as [d|]; [|discriminate H].
  cbn in H, Hreq. destruct (assoc (id_argument k) d) as [i|].
  - cbn in H. destruct (String.eqb i "").
    + cbn in H. destruct k; discriminate H.
    + exact (@snoc_differs _ _ _ Hreq).
  - cbn in H. destruct k; discriminate H.
Qed.

End Advertised.

(** X1. The tools [list_tools] advertises are the tools [handle_call_tool]
    knows: a name is refused as an unknown tool, with nothing requested and
    nothing written, exactly when it is not the name of an advertised
    tool. *)
Theorem advertised_iff_known (client : Client) (name : string)
  (arguments : option (list (string * string))) (st : State) :
  In name (map Tools.name Tools.list_tools)
  <-> handle_call_tool client name arguments st <> (raise (UnknownTool name), st).
Proof.
  rewrite advertised_names. split.
  - intros Hin. destruct (tool_cases name) as [[k ->]|[[k ->]|Hout]].
    + apply list_tool_is_known.
    + apply detail_tool_is_known.
    + contradiction.
  - intros Hknown. destruct (in_dec string_dec name six_tools) as [Hin|Hout];
      [exact Hin|].
    exfalso. apply Hknown.
    now rewrite (call_other_tool client arguments Hout).
Qed.

(** X2. Each advertised input schema says what the dispatcher enforces. A
    tool whose schema requires nothing declares no property and never reads
    its arguments. A tool whose schema requires one argument declares just
    that property, fails with [<argument> is required.] before any request
    when the mapping lacks it, and reads nothing else of the mapping. *)
Theorem advertised_schema_enforced (t : Tools.Tool) :
  In t Tools.list_tools ->
  (Tools.required t = Some [] /\ Tools.declared t = Some []
   /\ forall client arguments arguments' st,
       handle_call_tool client (Tools.name t) arguments st
       = handle_call_tool client (Tools.name t) arguments' st)
  \/ (exists a,
         Tools.required t = Some [a] /\ Tools.declared t = Some [a]
         /\ (forall client d st,
                assoc a d = None ->
                handle_call_tool client (Tools.name t) (Some d) st
                = (raise (ValueError (a ++ " is required.")), st))
         /\ (forall client d d' st,
                assoc a d = assoc a d' ->
                handle_call_tool client (Tools.name t) (Some d) st
                = handle_call_tool client (Tools.name t) (Some d') st)).
Proof.
  assert (Hlist : forall k client arguments arguments' st,
             handle_call_tool client (list_tool k) arguments st
             = handle_call_tool client (list_tool k) arguments' st).
  { intros. now rewrite !call_list_tool. }
  assert (Hmissing : forall k client d st,
             assoc (id_argument k) d = None ->
             handle_call_tool client (detail_tool k) (Some d) st
             = (raise (MissingArgument (id_argument k)), st)).
  { intros k client d st Hnone. rewrite call_detail_tool.
    unfold detail_operation, bind, lift, arguments_get. cbn. now rewrite Hnone. }
  assert (Hdetail : forall k client d d' st,
             assoc (id_argument k) d = assoc (id_argument k) d' ->
             handle_call_tool client (detail_tool k) (Some d) st
             = handle_call_tool client (detail_tool k) (Some d') st).
  { intros k client d d' st Hsame. rewrite !call_detail_tool.
    unfold detail_operation, bind, lift, arguments_get. cbn. now rewrite Hsame. }
  intros Hin. unfold Tools.list_tools in Hin.
  destruct Hin as [<-|[<-|[<-|[<-|[<-|[<-|[]]]]]]].
  - left. split; [reflexivity|]. split; [reflexivity|]. exact (Hlist Report).
  - right. exists "report_id". split; [reflexivity|]. split; [reflexivity|].
    split; [exact (Hmissing Report)|exact (Hdetail Report)].
  - left. split; [reflexivity|]. split; [reflexivity|]. exact (Hlist Actor).
  - right. exists "actor_id". split; [reflexivity|]. split; [reflexivity|].
    split; [exact (Hmissing Actor)|exact (Hdetail Actor)].
  - left. split; [reflexivity|]. split; [reflexivity|]. exact (Hlist Source).
  - right. exists "source_id". split; [reflexivity|]. split; [reflexivity|].
    split; [exact (Hmissing Source)|exact (Hdetail Source)].
Qed.


Lemma advertised_iff_known_witness :
  handle_call_tool boom_client "fetch_sources" None idle_state
  <> (raise (UnknownTool "fetch_sources"), idle_state).
Proof.
  apply (advertised_iff_known boom_client "fetch_sources" None idle_state).
  cbn. tauto.
Defined.

Lemma advertised_schema_enforced_witness :
  handle_call_tool boom_client "fetch_threat_report_details" (Some []) idle_state
  = (raise (ValueError "report_id is required."), idle_state).
Proof.
  destruct (@advertised_schema_enforced
              {| Tools.name := "fetch_threat_report_details";
                 Tools.description :=
                   "Fetch detailed information for a specific threat report by ID.";
                 Tools.inputSchema :=
                   JObj [("type", JStr "object");
                         ("properties",
                          JObj [("report_id",
                                 JObj [("type", JStr "string");
                                       ("description",
                                        JStr "The ID of the threat report to fetch.")])]);
                         ("required", JArr [JStr "report_id"])] |}
              (or_intror (or_introl eq_refl)))
    as [(Hnone & _)|(a & Hone & _ & Hmissing & _)].
  - discriminate Hnone.
  - injection Hone as <-. exact (Hmissing boom_client [] idle_state eq_refl).
Defined.

(** ** More on reading *)

(** X20. With scheme [threat], a URL without a path fails with
    [AttributeError], and a path with no slash between its ends, so with a
    single segment, fails with [IndexError]; both before the kind is looked
    at and whatever the cache holds. *)
Theorem read_short_path (uri : AnyUrl) (c : Cache) :
  scheme uri = "threat" ->
  match path uri with
  | None => handle_read_resource uri c = raise AttributeError
  | Some p =>
      contains_char "/" (strip "/" p) = false ->
      handle_read_resource uri c = raise IndexError
  end.
Proof.
  intros Hscheme. unfold handle_read_resource. rewrite Hscheme. cbn.
  destruct (path uri) as [p|]; [|reflexivity].
  intros Hslash. now rewrite (split_absent _ _ Hslash).
Qed.

Lemma read_short_path_witness :
  handle_read_resource {| scheme := "threat"; host := Some "report"; path := None |}
    cache_init = raise AttributeError
  /\ handle_read_resource (path_url "/report/") cache_init = raise IndexError.
Proof.
  split.
  - exact (@read_short_path
             {| scheme := "threat"; host := Some "report"; path := None |}
             cache_init eq_refl).
  - exact (@read_short_path (path_url "/report/") cache_init eq_refl eq_refl).
Defined.

Lemma lookup_text_among_others (d : dict) (i : string) :
  forallb (fun key => negb (is_text key)) (keys d) = true ->
  dict_lookup d (JStr i) = None.
Proof.
  induction d as [|[k v] d IH]; cbn; [reflexivity|].
  intros [Hk Hd]%andb_prop. destruct k; cbn in *; try discriminate; auto.
Qed.

(** X21. Reading looks an id up as text. Entries whose ids are not strings
    (a catalog that numbers its records) are stored and listed, but no read
    finds them: with only such keys in the dictionary of a kind, every read
    of that kind returns the empty object. *)
Theorem ids_are_read_as_text (uri : AnyUrl) (c : Cache) (p : string)
  (k : EntityKind) (i : string) (rest : list string) :
  scheme uri = "threat" ->
  path uri = Some p ->
  split "/" (strip "/" p) = kind_segment k :: i :: rest ->
  forallb (fun key => negb (is_text key)) (keys (cache_get c (kind_key k))) = true ->
  handle_read_resource uri c = ok "{}".
Proof.
  intros Hscheme Hpath Hparts Hkeys.
  rewrite (read_by_path c uri k Hscheme Hpath Hparts).
  unfold dict_get. now rewrite (lookup_text_among_others _ i Hkeys).
Qed.

Lemma ids_are_read_as_text_witness :
  handle_list_resources (cache numbered_listed)
  = ok [ {| uri := "threat://report/7";
            name := "Threat Report: Seven";
            description := "Threat report titled Seven";
            mimeType := "application/json" |} ]
  /\ handle_read_resource (path_url "/report/7") (cache numbered_listed) = ok "{}".
Proof.
  split; [reflexivity|].
  exact (@ids_are_read_as_text (path_url "/report/7") (cache numbered_listed)
           "/report/7" Report "7" [] eq_refl eq_refl eq_refl eq_refl).
Defined.

(** Witnesses of the properties of reading proved earlier. *)
Lemma read_unsupported_scheme_witness :
  handle_read_resource {| scheme := "note"; host := Some "report"; path := Some "/r1" |}
    cache_init
  = raise (ValueError "Unsupported URI scheme: note").
Proof.
  apply (@read_unsupported_scheme cache_init
           {| scheme := "note"; host := Some "report"; path := Some "/r1" |}).
  discriminate.
Defined.

Lemma read_unknown_segment_witness :
  handle_read_resource (path_url "/widget/1") cache_init
  = raise (ValueError "Unknown resource type: widget").
Proof.
  apply (@read_unknown_segment cache_init (path_url "/widget/1") "/widget/1"
           "widget" "1" [] eq_refl eq_refl eq_refl).
  intros []; discriminate.
Defined.

Lemma read_miss_by_path_witness :
  handle_read_resource (path_url "/actor/a9/extra") (cache reports_listed) = ok "{}".
Proof.
  exact (@read_miss_by_path (cache reports_listed) (path_url "/actor/a9/extra")
           "/actor/a9/extra" Actor "a9" ["extra"] eq_refl eq_refl eq_refl eq_refl).
Defined.

Lemma read_back_by_path_witness :
  handle_read_resource (path_url "/report/r1") (cache detail_cached)
  = ok (dumps report_one).
Proof.
  exact (@read_back_by_path catalog Report
           {| status_code := 200;
              response_text := dumps (JObj [("data", report_one)]);
              json := ok (JObj [("data", report_one)]) |}
           [("report_id", "r1")] "r1" [("data", report_one)] idle_state
           (path_url "/report/r1") "/report/r1" []
           eq_refl ltac:(discriminate) eq_refl eq_refl eq_refl eq_refl eq_refl eq_refl).
Defined.

Lemma read_listed_address_witness :
  read_resource "threat://actor/a1" (cache reports_listed) = Some (raise IndexError).
Proof.
  exact (@read_listed_address Actor "a1" eq_refl (cache reports_listed)).
Defined.

(** ** Well-formed dictionaries and repeated calls *)

Section Repeats.

Lemma distinct_app (l l' : list JSON) :
  distinct l = true -> distinct l' = true ->
  (forall x, In x l' -> key_mem x l = false) ->
  distinct (l ++ l') = true.
Proof.
  intros Hl Hl' Hapart. induction l as [|k l IH]; [exact Hl'|].
  cbn in Hl. apply andb_prop in Hl as [Hk Hl]. apply negb_true_iff in Hk.
  cbn. rewrite key_mem_app, Hk. cbn.
  assert (Hk' : key_mem k l' = false).
  { unfold key_mem. apply not_true_is_false. intros Hex.
    apply existsb_exists in Hex as (x & Hx & Hxk).
    specialize (Hapart x Hx). cbn in Hapart.
    rewrite key_eqb_sym, Hxk in Hapart. discriminate. }
  rewrite Hk'. cbn. apply IH; [exact Hl|].
  intros x Hx. specialize (Hapart x Hx). cbn in Hapart.
  now apply orb_false_elim in Hapart as [_ Hrest].
Qed.

Lemma dict_ok_set (d : dict) (k v : JSON) :
  hashable k = true -> dict_ok d = true -> dict_ok (dict_set d k v) = true.
Proof.
  unfold dict_ok. intros Hk [Hdistinct Hhash]%andb_prop.
  rewrite keys_set. destruct (key_mem k (keys d)) eqn:Hmem.
  - now rewrite Hdistinct, Hhash.
  - rewrite forallb_app, Hhash. cbn. rewrite Hk. cbn. rewrite andb_true_r.
    apply distinct_app; [exact Hdistinct|reflexivity|].
    intros x [<-|[]]. exact Hmem.
Qed.

Lemma has_id_hashable (item : JSON) : has_id item = true -> hashable (item_id item) = true.
Proof. unfold has_id, item_id. now destruct (getitem item "id"). Qed.

Lemma dict_ok_put_all (items : list JSON) (d : dict) :
  forallb has_id items = true -> dict_ok d = true -> dict_ok (put_all items d) = true.
Proof.
  revert d. induction items as [|item items IH]; intros d; cbn; [auto|].
  intros [Hid Hids]%andb_prop Hd.
  apply (IH _ Hids). apply dict_ok_set; [now apply has_id_hashable|exact Hd].
Qed.

Lemma cache_ok_stored (st : State) (k : EntityKind) (id v : JSON) :
  hashable id = true ->
  cache_ok (cache st) = true ->
  cache_ok (cache (stored st k id v)) = true.
Proof.
  unfold cache_ok, stored. cbn [cache].
  intros Hid [[Hr Ha]%andb_prop Hs]%andb_prop.
  destruct k; cbn; rewrite ?Hr, ?Ha, ?Hs, ?andb_true_r; cbn;
    now apply dict_ok_set.
Qed.

Lemma for_each_store_ok (k : EntityKind) (items : list JSON) (st : State) :
  cache_ok (cache st) = true ->
  cache_ok (cache (snd (for_each (store k) items st))) = true.
Proof.
  revert st. induction items as [|item items IH]; intros st Hok; [exact Hok|].
  cbn. unfold bind. rewrite store_step. destruct (has_id item) eqn:Hid.
  - apply IH. apply cache_ok_stored; [now apply has_id_hashable|exact Hok].
  - now destruct (getitem item "id").
Qed.

Lemma list_operation_ok (client : Client) (k : EntityKind) (st : State) :
  cache_ok (cache st) = true ->
  cache_ok (cache (snd (list_operation client k st))) = true.
Proof.
  intros Hok. unfold list_operation, bind, client_get, lift.
  destruct (client (entries_url k)) as [e|response]; [exact Hok|]. cbn.
  destruct (status_code response =? 200); [|exact Hok].
  destruct (json response) as [e|body]; [exact Hok|]. cbn.
  destruct (get body "data" (JArr [])) as [e|data]; [exact Hok|]. cbn.
  destruct (iter data) as [e|items]; [exact Hok|]. cbn.
  pose proof (for_each_store_ok k items
                {| cache := cache st;
                   requests := (requests st ++ [entries_url k])%list |} Hok) as Hloop.
  destruct (for_each (store k) items _) as [[e|[]] st1]; [exact Hloop|].
  destruct (comprehension (summary_line k) items); exact Hloop.
Qed.

Lemma detail_operation_ok (client : Client) (k : EntityKind)
  (arguments : option (list (string * string))) (st : State) :
  cache_ok (cache st) = true ->
  cache_ok (cache (snd (detail_operation client k arguments st))) = true.
Proof.
  intros Hok. unfold detail_operation, bind, client_get, lift.
  destruct (arguments_get arguments (id_argument k)) as [e|[i|]];
    [exact Hok| |exact Hok].
  cbn. destruct (String.eqb i ""); [exact Hok|]. cbn.
  destruct (client (entry_url k i)) as [e|response]; [exact Hok|]. cbn.
  destruct (status_code response =? 200); [|exact Hok].
  destruct (json response) as [e|body]; [exact Hok|]. cbn.
  destruct (get body "data" (JObj [])) as [e|details]; [exact Hok|]. cbn.
  now apply (cache_ok_stored
               {| cache := cache st; requests := (requests st ++ [entry_url k i])%list |}
               k (JStr i) details).
Qed.

Lemma call_ok (client : Client) (name : string)
  (arguments : option (list (string * string))) (st : State) :
  cache_ok (cache st) = true ->
  cache_ok (cache (snd (handle_call_tool client name arguments st))) = true.
Proof.
  intros Hok. destruct (tool_cases name) as [[k ->]|[[k ->]|Hout]].
  - rewrite call_list_tool. now apply list_operation_ok.
  - rewrite call_detail_tool. now apply detail_operation_ok.
  - now rewrite (call_other_tool client arguments Hout).
Qed.

Lemma reachable_cache_ok (st : State) : reachable st -> cache_ok (cache st) = true.
Proof.
  induction 1 as [|st client name arguments Hreach IH]; [reflexivity|].
  now apply call_ok.
Qed.

Lemma dict_ok_of_cache (c : Cache) (k : EntityKind) :
  cache_ok c = true -> dict_ok (cache_get c (kind_key k)) = true.
Proof.
  unfold cache_ok. intros [[Hr Ha]%andb_prop Hs]%andb_prop. now destruct k.
Qed.

Lemma key_mem_self (k : JSON) (l : list JSON) :
  hashable k = true -> In k l -> key_mem k l = true.
Proof.
  intros Hk Hin. unfold key_mem. apply existsb_exists.
  exists k. split; [exact Hin|now apply key_eqb_refl].
Qed.

(** After the records were written, each of their ids is a key. *)
Lemma put_all_has_ids (items : list JSON) (d : dict) (id : JSON) :
  forallb has_id items = true ->
  In id (map item_id items) ->
  key_mem id (keys (put_all items d)) = true.
Proof.
  intros Hids Hin. rewrite keys_put_all, key_mem_app, key_mem_first_seen.
  destruct (key_mem id (keys d)) eqn:Hmem; [reflexivity|]. cbn.
  apply key_mem_self.
  - apply in_map_iff in Hin as (item & <- & Hitem).
    rewrite forallb_forall in Hids. now apply has_id_hashable, Hids.
  - apply filter_In. split; [exact Hin|now rewrite Hmem].
Qed.

Lemma filter_none (p : JSON -> bool) (l : list JSON) :
  (forall x, In x l -> p x = false) -> filter p l = [].
Proof.
  induction l as [|x l IH]; cbn; [reflexivity|]. intros Hall.
  rewrite (Hall x (or_introl eq_refl)). apply IH. auto.
Qed.

(** Writing the same records a second time changes nothing. *)
Lemma put_all_twice (items : list JSON) (d : dict) :
  forallb has_id items = true ->
  dict_ok d = true ->
  put_all items (put_all items d) = put_all items d.
Proof.
  intros Hids Hd.
  pose proof (dict_ok_put_all items d Hids Hd) as Hd1.
  pose proof (dict_ok_put_all items _ Hids Hd1) as Hd2.
  unfold dict_ok in Hd1, Hd2.
  apply andb_prop in Hd1 as [Hdistinct1 Hhash1].
  apply andb_prop in Hd2 as [Hdistinct2 Hhash2].
  assert (Hkeys : keys (put_all items (put_all items d)) = keys (put_all items d)).
  { rewrite (keys_put_all items (put_all items d)).
    assert (Hnone : filter (fun id => negb (key_mem id (keys (put_all items d))))
                      (map item_id items) = []).
    { apply filter_none. intros id Hin.
      now rewrite (put_all_has_ids items d id Hids Hin). }
    rewrite Hnone. cbn. apply app_nil_r. }
  etransitivity; [symmetry; exact (dict_by_keys _ Hdistinct2 Hhash2)|].
  etransitivity; [|exact (dict_by_keys _ Hdistinct1 Hhash1)].
  rewrite Hkeys. apply map_ext. intros key. f_equal.
  rewrite (lookup_put_all items (put_all items d)).
  rewrite (lookup_put_all items d).
  now destruct (last_record key items).
Qed.

Lemma dict_set_twice (d : dict) (k v : JSON) :
  hashable k = true -> dict_set (dict_set d k v) k v = dict_set d k v.
Proof.
  intros Hk. induction d as [|[k' v'] d IH]; cbn.
  - now rewrite (key_eqb_refl _ Hk).
  - destruct (key_eqb k' k) eqn:Hk'; cbn; rewrite Hk'; [reflexivity|].
    now rewrite IH.
Qed.

End Repeats.

(** X22. However the server got where it is, by list and detail calls of any
    kind, successful or failed, no dictionary of the cache holds two entries
    under equal ids: the second write under an id replaces the first. *)
Theorem no_id_cached_twice (st : State) (k : EntityKind) :
  reachable st ->
  distinct (keys (cache_get (cache st) (kind_key k))) = true.
Proof.
  intros Hreach.
  pose proof (dict_ok_of_cache _ k (reachable_cache_ok Hreach)) as Hok.
  unfold dict_ok in Hok. now apply andb_prop in Hok as [Hdistinct _].
Qed.

Lemma no_id_cached_twice_witness :
  distinct
    (keys (cache_get
             (cache (snd (handle_call_tool untitled_catalog "fetch_latest_threat_reports"
                            None reports_listed)))
             (kind_key Report))) = true.
Proof.
  apply no_id_cached_twice.
  apply (reach_call untitled_catalog "fetch_latest_threat_reports" None).
  apply (reach_call catalog "fetch_latest_threat_reports" None).
  apply reach_idle.
Defined.

(** X23. A list operation can be repeated. From any state the server can
    be in, against the same answer (status 200, well-formed records), a
    second call returns the same text and leaves the cache exactly as the
    first call left it, duplicated ids in the answer included. *)
Theorem repeated_list_call (client : Client) (k : EntityKind) (response : Response)
  (fields : list (string * JSON)) (items : list JSON)
  (arguments arguments' : option (list (string * string))) (st : State) :
  client (entries_url k) = ok response ->
  status_code response = 200 ->
  json response = ok (JObj fields) ->
  listed fields = Some items ->
  forallb (well_formed k) items = true ->
  reachable st ->
  let first := handle_call_tool client (list_tool k) arguments st in
  let second := handle_call_tool client (list_tool k) arguments' (snd first) in
  fst second = fst first /\ cache (snd second) = cache (snd first).
Proof.
  intros Hget Hstatus Hjson Hlisted Hall Hreach first second.
  pose proof (dict_ok_of_cache _ k (reachable_cache_ok Hreach)) as Hok.
  assert (Hdata : exists data,
             get (JObj fields) "data" (JArr []) = ok data /\ iter data = ok items).
  { unfold listed in Hlisted. unfold get.
    destruct (assoc "data" fields) as [[| | | |l|]|]; try discriminate;
      injection Hlisted as <-; eexists; split; reflexivity. }
  destruct Hdata as (data & Hdata & Hiter).
  unfold second, first. rewrite !call_list_tool.
  rewrite (list_operation_success k client st Hget Hstatus Hjson Hdata Hiter Hall).
  cbn [snd fst].
  rewrite (list_operation_success k client _ Hget Hstatus Hjson Hdata Hiter Hall).
  cbn [snd fst]. split; [reflexivity|].
  unfold written, logged. cbn [cache].
  rewrite cache_get_with_same, cache_with_with.
  now rewrite (put_all_twice items _ (well_formed_has_id k _ Hall) Hok).
Qed.

Lemma repeated_list_call_witness :
  cache (snd (handle_call_tool catalog "fetch_latest_threat_reports" None reports_listed))
  = cache reports_listed.
Proof.
  pose proof (@repeated_list_call catalog Report
                {| status_code := 200;
                   response_text := dumps (JObj [("data", JArr [report_one; report_two])]);
                   json := ok (JObj [("data", JArr [report_one; report_two])]) |}
                [("data", JArr [report_one; report_two])] [report_one; report_two]
                None None idle_state eq_refl eq_refl eq_refl eq_refl eq_refl
                reach_idle) as H.
  cbv zeta in H. destruct H as [_ Hcache]. exact Hcache.
Defined.

(** X24. A detail operation can be repeated: against the same answer, a
    second call returns the same text and leaves the cache exactly as the
    first call left it. *)
Theorem repeated_detail_call (client : Client) (k : EntityKind) (response : Response)
  (d : list (string * string)) (i : string) (fields : list (string * JSON))
  (st : State) :
  assoc (id_argument k) d = Some i ->
  i <> "" ->
  client (entry_url k i) = ok response ->
  status_code response = 200 ->
  json response = ok (JObj fields) ->
  let first := handle_call_tool client (detail_tool k) (Some d) st in
  let second := handle_call_tool client (detail_tool k) (Some d) (snd first) in
  fst second = fst first /\ cache (snd second) = cache (snd first).
Proof.
  intros Harg Hi Hget Hstatus Hjson first second.
  assert (Hdata : get (JObj fields) "data" (JObj []) = ok (carried fields)).
  { unfold get, carried. now destruct (assoc "data" fields). }
  unfold second, first. rewrite !call_detail_tool.
  rewrite (detail_operation_success client k d st Harg Hi Hget Hstatus Hjson Hdata).
  cbn [snd fst].
  rewrite (detail_operation_success client k d _ Harg Hi Hget Hstatus Hjson Hdata).
  cbn [snd fst]. split; [reflexivity|].
  unfold stored, logged. cbn [cache].
  rewrite cache_get_with_same, cache_with_with.
  now rewrite dict_set_twice.
Qed.

Lemma repeated_detail_call_witness :
  cache (snd (handle_call_tool catalog "fetch_threat_report_details"
                (Some [("report_id", "r1")]) detail_cached))
  = cache detail_cached.
Proof.
  pose proof (@repeated_detail_call catalog Report
                {| status_code := 200;
                   response_text := dumps (JObj [("data", report_one)]);
                   json := ok (JObj [("data", report_one)]) |}
                [("report_id", "r1")] "r1" [("data", report_one)] idle_state
                eq_refl ltac:(discriminate) eq_refl eq_refl eq_refl) as H.
  cbv zeta in H. destruct H as [_ Hcache]. exact Hcache.
Defined.

(** X25. What a list operation stored can be read back on the path: after a
    successful list operation, a URL whose path starts with the kind and a
    text id returns the JSON text of the last record of the answer that
    carries this id. *)
Theorem list_then_read_by_path (client : Client) (k : EntityKind)
  (response : Response) (fields : list (string * JSON)) (items : list JSON)
  (arguments : option (list (string * string))) (st : State)
  (uri : AnyUrl) (p i : string) (rest : list string) (v : JSON) :
  client (entries_url k) = ok response ->
  status_code response = 200 ->
  json response = ok (JObj fields) ->
  listed fields = Some items ->
  forallb (well_formed k) items = true ->
  scheme uri = "threat" ->
  path uri = Some p ->
  split "/" (strip "/" p) = kind_segment k :: i :: rest ->
  last_record (JStr i) items = Some v ->
  handle_read_resource uri
    (cache (snd (handle_call_tool client (list_tool k) arguments st)))
  = ok (dumps v).
Proof.
  intros Hget Hstatus Hjson Hlisted Hall Hscheme Hpath Hparts Hlast.
  assert (Hdata : exists data,
             get (JObj fields) "data" (JArr []) = ok data /\ iter data = ok items).
  { unfold listed in Hlisted. unfold get.
    destruct (assoc "data" fields) as [[| | | |l|]|]; try discriminate;
      injection Hlisted as <-; eexists; split; reflexivity. }
  destruct Hdata as (data & Hdata & Hiter).
  rewrite call_list_tool.
  rewrite (list_operation_success k client st Hget Hstatus Hjson Hdata Hiter Hall).
  cbn [snd]. rewrite (read_by_path _ uri k Hscheme Hpath Hparts).
  unfold written, logged. cbn [cache].
  rewrite cache_get_with_same. unfold dict_get.
  now rewrite lookup_put_all, Hlast.
Qed.

Lemma list_then_read_by_path_witness :
  handle_read_resource (path_url "/report/r2") (cache reports_listed)
  = ok (dumps report_two).
Proof.
  exact (@list_then_read_by_path catalog Report
           {| status_code := 200;
              response_text := dumps (JObj [("data", JArr [report_one; report_two])]);
              json := ok (JObj [("data", JArr [report_one; report_two])]) |}
           [("data", JArr [report_one; report_two])] [report_one; report_two]
           None idle_state (path_url "/report/r2") "/report/r2" "r2" [] report_two
           eq_refl eq_refl eq_refl eq_refl eq_refl eq_refl eq_refl eq_refl eq_refl).
Defined.
